(** * steamApp: inventory valuation with a price cache and a valuation cache

    A shallow embedding of [steamApp.py].  The Flask handler [value] and the
    helpers it calls are written as functions in a small state-and-exception
    monad over a [world]: the two cache tables, a clock, the trace of the
    outbound HTTP requests and of the calls to [time.sleep], and cursors into
    the two sources of non-determinism (what the upstream servers answer and
    what [random.random] draws).

    Numbers.  Python floats are modelled by exact rationals ([Q]): sums,
    the division by 100 and [round(x, 2)] (round half to even on the exact
    value) are the exact operations, where the doubles of Python round
    every result, and the decimal literals they are read from, to 53
    bits.  Non-finite floats (inf, nan, overflow) have no rational: a run
    that would go on with one ends in [Unfollowed], which stands for "not
    followed any further" and for no behaviour of the program.

    Text.  Strings are byte strings, and the character classes are those
    of ASCII.  [str.strip] and [float] also know the blanks and digits of
    Unicode: a string with a byte outside ASCII is not followed through
    [float] either.

    Storage.  The two MySQL tables are modelled as finite maps from the key
    column to the pair (value, expires_at); a read returns the value that was
    written, and the database clock is the clock of the process.

    Time.  The clock moves when the process sleeps; the time a request or a
    query takes is not modelled, and [elapse] lets any time pass between two
    calls. *)

From Stdlib Require Import ZArith QArith Qround Qabs Lqa Ascii String List Bool Lia Sorted.
From stdpp Require Import gmap strings.
Import ListNotations.

Local Open Scope string_scope.
Local Open Scope list_scope.

(** ** Python strings (byte strings; ASCII classes only) *)

Module PyStr.

(** [sub in s] *)
Fixpoint contains (sub s : string) : bool :=
  match s with
  | EmptyString => String.prefix sub s
  | String _ s' => String.prefix sub s || contains sub s'
  end.

(** [s.split(sep)] for a non-empty [sep]: left to right, non-overlapping.
    [skip] counts the characters of a matched separator still to be
    dropped, [cur] is the piece being read. *)
Fixpoint split_from (sep s : string) (skip : nat) (cur : string) : list string :=
  match s with
  | EmptyString => [cur]
  | String c s' =>
      match skip with
      | S k => split_from sep s' k cur
      | O =>
          if String.prefix sep s
          then cur :: split_from sep s' (String.length sep - 1) EmptyString
          else split_from sep s' 0 (cur ++ String c EmptyString)
      end
  end.

Definition split (sep s : string) : list string := split_from sep s 0 EmptyString.

(** [sep.join(parts)] *)
Fixpoint join (sep : string) (parts : list string) : string :=
  match parts with
  | [] => EmptyString
  | [p] => p
  | p :: rest => p ++ sep ++ join sep rest
  end.

(** [s.replace(old, new)] for a non-empty [old] *)
Definition replace (old new s : string) : string := join new (split old s).

Definition is_space (c : ascii) : bool :=
  let n := N_of_ascii c in
  ((9 <=? n) && (n <=? 13) || (28 <=? n) && (n <=? 32))%N.

Fixpoint lstrip (s : string) : string :=
  match s with
  | EmptyString => EmptyString
  | String c s' => if is_space c then lstrip s' else s
  end.

Fixpoint rstrip (s : string) : string :=
  match s with
  | EmptyString => EmptyString
  | String c s' =>
      match rstrip s' with
      | EmptyString => if is_space c then EmptyString else String c EmptyString
      | r => String c r
      end
  end.

(** [s.strip()] *)
Definition strip (s : string) : string := rstrip (lstrip s).

Definition lower_char (c : ascii) : ascii :=
  let n := N_of_ascii c in
  if ((65 <=? n) && (n <=? 90))%N then ascii_of_N (n + 32) else c.

(** [s.lower()] *)
Fixpoint lower (s : string) : string :=
  match s with
  | EmptyString => EmptyString
  | String c s' => String (lower_char c) (lower s')
  end.

Definition is_alnum (c : ascii) : bool :=
  let n := N_of_ascii c in
  ((48 <=? n) && (n <=? 57) || (65 <=? n) && (n <=? 90) || (97 <=? n) && (n <=? 122))%N.

Definition hex_digit (n : N) : ascii :=
  if (n <? 10)%N then ascii_of_N (48 + n) else ascii_of_N (55 + n).

(** [requests.utils.quote(s)]: every byte outside letters, digits,
    [_ . - ~] and [/] becomes [%XX]. *)
Definition quote_char (c : ascii) : string :=
  if is_alnum c || existsb (Ascii.eqb c) ["_"; "."; "-"; "~"; "/"]%char
  then String c EmptyString
  else let n := N_of_ascii c in
       String "%" (String (hex_digit (n / 16)) (String (hex_digit (n mod 16)) EmptyString)).

Fixpoint quote (s : string) : string :=
  match s with
  | EmptyString => EmptyString
  | String c s' => quote_char c ++ quote s'
  end.

(** does the character occur in the string *)
Fixpoint has_char (c : ascii) (s : string) : bool :=
  match s with
  | EmptyString => false
  | String d s' => Ascii.eqb c d || has_char c s'
  end.

End PyStr.

(** ** [float(str)] *)

Module PyFloat.

(** what [float] makes of its argument: a finite number; or a value that
    this development does not follow ([Beyond]: inf, nan, a magnitude
    that no finite double holds, and text outside ASCII, whose blanks and
    digits [float] reads by their Unicode class); or no number at all
    ([Invalid]), where [float] raises *)
Inductive parse : Type :=
| Number (q : Q)
| Beyond
| Invalid.

Definition digit_of (c : ascii) : option N :=
  let n := N_of_ascii c in
  if ((48 <=? n) && (n <=? 57))%N then Some (n - 48)%N else None.

(** the longest digit part at the head of [s], continuing the number
    [acc]: decimal digits, and single underscores each between two
    digits; [cnt] counts the digits read *)
Fixpoint read_digits (s : string) (acc : N) (cnt : nat) : N * nat * string :=
  match s with
  | EmptyString => (acc, cnt, EmptyString)
  | String c s' =>
      match digit_of c with
      | Some d => read_digits s' (10 * acc + d)%N (S cnt)
      | None =>
          if Ascii.eqb c "_" then
            match cnt, s' with
            | S _, String c' _ =>
                match digit_of c' with
                | Some _ => read_digits s' acc cnt
                | None => (acc, cnt, s)
                end
            | _, _ => (acc, cnt, s)
            end
          else (acc, cnt, s)
      end
  end.

Definition read_sign (s : string) : bool * string :=
  match s with
  | String "-" s' => (true, s')
  | String "+" s' => (false, s')
  | _ => (false, s)
  end.

(** [m * 10^e] *)
Definition scale10 (m : Z) (e : Z) : Q :=
  if (0 <=? e)%Z then inject_Z (m * 10 ^ e)
  else Qmake m (Z.to_pos (10 ^ (- e))).

(** the optional exponent part; [None] when what is left is no exponent *)
Definition read_exponent (s : string) : option Z :=
  match s with
  | EmptyString => Some 0%Z
  | String c r =>
      if Ascii.eqb c "e" || Ascii.eqb c "E" then
        let (eneg, r1) := read_sign r in
        match read_digits r1 0 0 with
        | (ev, S _, EmptyString) => Some (if eneg then - Z.of_N ev else Z.of_N ev)%Z
        | _ => None
        end
      else None
  end.

(** the blanks that [float] skips around a number: those of C's
    [isspace], fewer than [str.strip] removes *)
Definition is_blank (c : ascii) : bool :=
  let n := N_of_ascii c in
  ((9 <=? n) && (n <=? 13) || (n =? 32))%N.

Fixpoint ltrim (s : string) : string :=
  match s with
  | EmptyString => EmptyString
  | String c s' => if is_blank c then ltrim s' else s
  end.

Fixpoint rtrim (s : string) : string :=
  match s with
  | EmptyString => EmptyString
  | String c s' =>
      match rtrim s' with
      | EmptyString => if is_blank c then EmptyString else String c EmptyString
      | r => String c r
      end
  end.

Definition trim (s : string) : string := rtrim (ltrim s).

Fixpoint is_ascii (s : string) : bool :=
  match s with
  | EmptyString => true
  | String c s' => (N_of_ascii c <? 128)%N && is_ascii s'
  end.

(** the literals inf, infinity and nan, in any case *)
Definition is_special (s : string) : bool :=
  let t := PyStr.lower s in
  String.eqb t "inf" || String.eqb t "infinity" || String.eqb t "nan".

(** half-way from the largest double to 2^1024: from there on the nearest
    double is inf *)
Definition overflow_bound : Q := inject_Z (2 ^ 1024 - 2 ^ 970).

Definition finite (q : Q) : bool := negb (Qle_bool overflow_bound (Qabs q)).

(** a number as a float, when a finite double holds it *)
Definition of_Q (q : Q) : parse := if finite q then Number q else Beyond.

(** [float(s)] on a string: surrounding blanks, a sign, then inf or nan,
    or digits with an optional fraction and an optional exponent *)
Definition of_string (s : string) : parse :=
  if negb (is_ascii s) then Beyond
  else
    let (neg, s1) := read_sign (trim s) in
    if is_special s1 then Beyond
    else
      let '(ip, ni, s2) := read_digits s1 0 0 in
      let '(m, nf, s3) :=
        match s2 with
        | String "." r => read_digits r ip 0
        | _ => (ip, O, s2)
        end in
      match (ni + nf)%nat with
      | O => Invalid
      | S _ =>
          match read_exponent s3 with
          | Some ex =>
              let v := scale10 (Z.of_N m) (ex - Z.of_nat nf) in
              of_Q (if neg then Qopp v else v)
          | None => Invalid
          end
      end.

End PyFloat.

(** ** Python values: what [r.json()] yields and what [jsonify] takes

    A [JNum] whose magnitude no finite double holds stands for what the
    decoder makes of an overflowing literal and of the literals
    [Infinity], [-Infinity] and [NaN], which it accepts. *)

#[warnings="-register-all"] Inductive json : Type :=
| JNull
| JBool (b : bool)
| JNum (q : Q)
| JStr (s : string)
| JArr (items : list json)
| JObj (fields : list (string * json)).

(** the exceptions a run can end with.  [Unfollowed] is none of Python's:
    it ends a run at the point where the program goes on with a float
    that this development does not follow (see [PyFloat.parse]). *)
Inductive exn : Type :=
| AttributeError
| TypeError
| ValueError
| RecursionError
| Unfollowed.

(** [bool(v)] *)
Definition truthy (v : json) : bool :=
  match v with
  | JNull => false
  | JBool b => b
  | JNum q => negb (Qeq_bool q 0%Q)
  | JStr s => negb (String.eqb s EmptyString)
  | JArr l => match l with [] => false | _ => true end
  | JObj kv => match kv with [] => false | _ => true end
  end.

(** the value a decoded object holds under [k]: of a repeated key the
    last occurrence stays *)
Fixpoint assoc_last (k : string) (kv : list (string * json)) : option json :=
  match kv with
  | [] => None
  | (k', v) :: rest =>
      match assoc_last k rest with
      | Some x => Some x
      | None => if String.eqb k k' then Some v else None
      end
  end.

(** [d.get(k, default)]; on anything but a dict the attribute is missing *)
Definition dict_get (v : json) (k : string) (default : json) : exn + json :=
  match v with
  | JObj kv => inr (match assoc_last k kv with Some x => x | None => default end)
  | _ => inl AttributeError
  end.

Definition is_str (k : string) (v : json) : bool :=
  match v with JStr s => String.eqb s k | _ => false end.

(** [k in v] for a string [k] *)
Definition py_in (k : string) (v : json) : exn + bool :=
  match v with
  | JObj kv => inr (match assoc_last k kv with Some _ => true | None => false end)
  | JArr l => inr (existsb (is_str k) l)
  | JStr s => inr (PyStr.contains k s)
  | _ => inl TypeError
  end.

(** the keys of a decoded object in first-occurrence order *)
Fixpoint dict_keys (kv : list (string * json)) (seen : list string) : list string :=
  match kv with
  | [] => []
  | (k, _) :: rest =>
      if existsb (String.eqb k) seen then dict_keys rest seen
      else k :: dict_keys rest (k :: seen)
  end.

Fixpoint chars (s : string) : list string :=
  match s with
  | EmptyString => []
  | String c s' => String c EmptyString :: chars s'
  end.

(** what [for item in v] runs over *)
Definition py_iter (v : json) : exn + list json :=
  match v with
  | JArr l => inr l
  | JObj kv => inr (map JStr (dict_keys kv []))
  | JStr s => inr (map JStr (chars s))
  | _ => inl TypeError
  end.

(** [float(v)]: [Invalid] is its [ValueError] on a string and its
    [TypeError] on null, a list or a dict.  A number past the range of
    the doubles is an [OverflowError] when it was decoded to an int and is
    inf already when it was decoded to a float: either way [Beyond]. *)
Definition py_float (v : json) : PyFloat.parse :=
  match v with
  | JNum q => PyFloat.of_Q q
  | JBool b => PyFloat.Number (if b then 1%Q else 0%Q)
  | JStr s => PyFloat.of_string s
  | _ => PyFloat.Invalid
  end.

(** round half to even, on the exact value *)
Definition round_half_even (q : Q) : Z :=
  let f := Qfloor q in
  match Qcompare (q - inject_Z f)%Q (1 # 2)%Q with
  | Lt => f
  | Gt => (f + 1)%Z
  | Eq => if Z.even f then f else (f + 1)%Z
  end.

(** [round(x, 2)] *)
Definition round2 (q : Q) : Q := Qmake (round_half_even (q * 100)%Q) 100.

(** [sorted(l, key=..., reverse=True)] on (name, price) pairs: descending
    by price, equal prices keep their order *)
Fixpoint insert_desc (x : string * Q) (l : list (string * Q)) : list (string * Q) :=
  match l with
  | [] => [x]
  | y :: rest =>
      if Qle_bool (snd y) (snd x) then x :: y :: rest
      else y :: insert_desc x rest
  end.

Definition sorted_desc (l : list (string * Q)) : list (string * Q) :=
  fold_right insert_desc [] l.

(** ** The world the handler runs in *)

(** what one call of [requests.get] comes back with: a response, with its
    status and its body decoded by [r.json()] ([None] for a body that is
    not JSON, on which [r.json()] raises
    [requests.exceptions.JSONDecodeError], a [RequestException] since
    requests 2.27); or a [requests.RequestException] (time-out, connection
    error); or a 200 response on whose body [r.json()] raises [ex], an
    exception that is no [RequestException]: [RecursionError] on a body
    nested too deep, [ValueError] on an integer literal longer than
    [int] converts, and with requests before 2.27 the [ValueError] of
    every body that is not JSON *)
Inductive outcome : Type :=
| Response (status_code : Z) (body : option json)
| RequestException
| Unreadable (ex : exn).

Inductive event : Type :=
| Get (url : string) (headers : option (list (string * string)))
| Sleep (seconds : Q).

(** what is fixed for a run: the configuration read at start-up, the
    answer to the n-th outbound request and the n-th draw of
    [random.random], as a numerator over 2^53 *)
Record env : Type := {
  CSFLOAT_API_KEY : option string;
  upstream : nat -> outcome;
  entropy : nat -> N
}.

(** the state a run goes through: the clock, in seconds; the table
    [item_prices] (market_hash to price and expires_at) and the table
    [inventory_values] (steamid to value and expires_at); how many requests
    went out and how many random numbers were drawn; the requests and the
    sleeps so far, oldest first *)
Record world : Type := {
  now : Q;
  item_prices : gmap string (Q * Q);
  inventory_values : gmap string (Q * Q);
  sent : nat;
  drawn : nat;
  trace : list event
}.

Inductive res (A : Type) : Type :=
| Ret (a : A)
| Raise (e : exn).
Arguments Ret {A} a.
Arguments Raise {A} e.

Definition M (A : Type) : Type := world -> res A * world.

Definition ret {A} (a : A) : M A := fun w => (Ret a, w).

Definition raise {A} (e : exn) : M A := fun w => (Raise e, w).

Definition bind {A B} (c : M A) (k : A -> M B) : M B :=
  fun w =>
    match c w with
    | (Ret a, w') => k a w'
    | (Raise e, w') => (Raise e, w')
    end.

Definition lift {A} (r : exn + A) : M A :=
  match r with
  | inl e => raise e
  | inr a => ret a
  end.

Declare Scope py_scope.
Delimit Scope py_scope with py.
Notation "x <- c1 ;; c2" := (bind c1 (fun x => c2))
  (at level 100, c1 at next level, right associativity) : py_scope.
Notation "c1 ;; c2" := (bind c1 (fun _ => c2))
  (at level 100, right associativity) : py_scope.
Local Open Scope py_scope.

Definition log (ev : event) (w : world) : world :=
  {| now := now w; item_prices := item_prices w;
     inventory_values := inventory_values w;
     sent := sent w; drawn := drawn w; trace := trace w ++ [ev] |}.

(** time passing, by [d] seconds *)
Definition elapse (d : Q) (w : world) : world :=
  {| now := (now w + d)%Q; item_prices := item_prices w;
     inventory_values := inventory_values w;
     sent := sent w; drawn := drawn w; trace := trace w |}.

(** the world once one more request has gone out *)
Definition issue (url : string) (headers : option (list (string * string)))
    (w : world) : world :=
  log (Get url headers)
    {| now := now w; item_prices := item_prices w;
       inventory_values := inventory_values w;
       sent := S (sent w); drawn := drawn w; trace := trace w |}.

(** the world once the process has slept [d] seconds *)
Definition asleep (d : Q) (w : world) : world := log (Sleep d) (elapse d w).

(** [requests.get(url, headers=headers, timeout=10)] *)
Definition requests_get (e : env) (url : string)
    (headers : option (list (string * string))) : M outcome :=
  fun w => (Ret (upstream e (sent w)), issue url headers w).

(** [time.sleep(d)]: a negative [d] is a [ValueError] *)
Definition time_sleep (d : Q) : M unit :=
  fun w =>
    if Qle_bool 0 d then (Ret tt, asleep d w)
    else (Raise ValueError, w).

(** [random.uniform(a, b)], which is [a + (b - a) * random.random()] *)
Definition random_uniform (e : env) (a b : Q) : M Q :=
  fun w =>
    let u := Qmake (Z.of_N (entropy e (drawn w) mod 2 ^ 53)) (2 ^ 53) in
    (Ret (a + (b - a) * u)%Q,
     {| now := now w; item_prices := item_prices w;
        inventory_values := inventory_values w;
        sent := sent w; drawn := S (drawn w); trace := trace w |}).

(** ** Database *)

(** [expires_at > NOW()] *)
Definition fresh (w : world) (row : Q * Q) : bool := negb (Qle_bool (snd row) (now w)).

Definition select_fresh (w : world) (table : gmap string (Q * Q)) (key : string) : option Q :=
  match table !! key with
  | Some row => if fresh w row then Some (fst row) else None
  | None => None
  end.

Definition get_cached_value (steamid : string) : M (option Q) :=
  fun w => (Ret (select_fresh w (inventory_values w) steamid), w).

Definition set_cached_value (steamid : string) (value : Q) (ttl : Q) : M unit :=
  fun w =>
    let expires := (now w + ttl)%Q in
    (Ret tt,
     {| now := now w; item_prices := item_prices w;
        inventory_values := <[steamid := (value, expires)]> (inventory_values w);
        sent := sent w; drawn := drawn w; trace := trace w |}).

Definition get_item_cache (market_hash : string) : M (option Q) :=
  fun w => (Ret (select_fresh w (item_prices w) market_hash), w).

Definition set_item_cache (market_hash : string) (price : Q) (ttl : Q) : M unit :=
  fun w =>
    let expires := (now w + ttl)%Q in
    (Ret tt,
     {| now := now w;
        item_prices := <[market_hash := (price, expires)]> (item_prices w);
        inventory_values := inventory_values w;
        sent := sent w; drawn := drawn w; trace := trace w |}).

(** ** Utilities *)

(** [extract_steamid(url)]; [None] also stands for a [url] that is not a
    string, on which the function returns [None] as well *)
Definition extract_steamid (url : option string) : option string :=
  match url with
  | None => None
  | Some u =>
      let after (marker : string) :=
        match nth_error (PyStr.split marker u) 1 with
        | Some rest => nth_error (PyStr.split "/" rest) 0
        | None => None
        end in
      if PyStr.contains "/profiles/" u then after "/profiles/"
      else if PyStr.contains "/id/" u then after "/id/"
      else None
  end.

(** [backoff * (attempt + 1)] *)
Definition delay (backoff : Q) (attempt : nat) : Q :=
  (backoff * inject_Z (Z.of_nat attempt + 1))%Q.

(** the loop of [safe_request]: [remaining] attempts are left and
    [attempt] is the loop variable.  [r.json()] runs inside the [try]:
    what it raises is handled when it is a [RequestException] and leaves
    the function otherwise. *)
Fixpoint safe_request_loop (e : env) (url : string)
    (headers : option (list (string * string))) (backoff : Q)
    (remaining attempt : nat) : M json :=
  match remaining with
  | O => ret JNull
  | S k =>
      r <- requests_get e url headers ;;
      match r with
      | Response status_code body =>
          if (status_code =? 200)%Z then
            match body with
            | Some payload => ret payload
            | None =>
                time_sleep (delay backoff attempt) ;;
                safe_request_loop e url headers backoff k (S attempt)
            end
          else if (status_code =? 429)%Z then
            time_sleep (delay backoff attempt) ;;
            safe_request_loop e url headers backoff k (S attempt)
          else ret JNull
      | RequestException =>
          time_sleep (delay backoff attempt) ;;
          safe_request_loop e url headers backoff k (S attempt)
      | Unreadable ex => raise ex
      end
  end.

(** [safe_request(url, headers, retries, backoff)]; Python's [None] is
    [JNull] *)
Definition safe_request (e : env) (url : string)
    (headers : option (list (string * string))) (retries : Z) (backoff : Q) : M json :=
  safe_request_loop e url headers backoff (Z.to_nat retries) 0.

Definition default_retries : Z := 3.
Definition default_backoff : Q := 3 # 2.

(** ** Price functions *)

(** [if CSFLOAT_API_KEY]: set, and not the empty string *)
Definition api_key_set (e : env) : bool :=
  match CSFLOAT_API_KEY e with
  | Some k => negb (String.eqb k EmptyString)
  | None => false
  end.

Definition csfloat_url (market_hash : string) : string :=
  "https://api.csfloat.com/api/v1/listings?search=" ++ PyStr.quote market_hash.

Definition csfloat_headers (e : env) : list (string * string) :=
  match CSFLOAT_API_KEY e with
  | Some k => if String.eqb k EmptyString then [] else [("Authorization", ("Bearer " ++ k)%string)]
  | None => []
  end.

(** the lines of [get_csfloat_price] after the fetch: the price of the
    first listing, in cents, as dollars *)
Definition csfloat_price_of (data : json) : exn + Q :=
  match data with
  | JArr (first :: _) =>
      match dict_get first "price" (JNum 0) with
      | inl ex => inl ex
      | inr price =>
          match py_float price with
          | PyFloat.Number p => inr (p / 100)%Q
          | PyFloat.Invalid => inr 0%Q
          | PyFloat.Beyond => inl Unfollowed
          end
      end
  | _ => inr 0%Q
  end.

Definition get_csfloat_price (e : env) (market_hash : string) : M Q :=
  data <- safe_request e (csfloat_url market_hash) (Some (csfloat_headers e))
            default_retries default_backoff ;;
  lift (csfloat_price_of data).

Definition steam_market_url (market_hash : string) : string :=
  "https://steamcommunity.com/market/priceoverview/?appid=730&currency=1&market_hash_name="
  ++ PyStr.quote market_hash.

(** [a or b] *)
Definition py_or (a b : json) : json := if truthy a then a else b.

(** [price_str.replace("$", "").replace(",", "").strip()] *)
Definition clean_price (price_str : string) : string :=
  PyStr.strip (PyStr.replace "," "" (PyStr.replace "$" "" price_str)).

(** the lines of [get_steam_market_price] after the fetch *)
Definition steam_price_of (data : json) : exn + Q :=
  if truthy data then
    match dict_get data "success" JNull with
    | inl ex => inl ex
    | inr success =>
        if truthy success then
          match dict_get data "lowest_price" JNull, dict_get data "median_price" JNull with
          | inr lowest, inr median =>
              let price_str := py_or lowest median in
              if truthy price_str then
                match price_str with
                | JStr s =>
                    match PyFloat.of_string (clean_price s) with
                    | PyFloat.Number p => inr p
                    | PyFloat.Invalid => inr 0%Q
                    | PyFloat.Beyond => inl Unfollowed
                    end
                | _ => inl AttributeError
                end
              else inr 0%Q
          | inl ex, _ => inl ex
          | _, inl ex => inl ex
          end
        else inr 0%Q
    end
  else inr 0%Q.

Definition get_steam_market_price (e : env) (market_hash : string) : M Q :=
  data <- safe_request e (steam_market_url market_hash) None
            default_retries default_backoff ;;
  lift (steam_price_of data).

Definition item_ttl : Q := 3600.
Definition value_ttl : Q := 300.

Definition get_item_price (e : env) (market_hash : string) : M Q :=
  cached <- get_item_cache market_hash ;;
  match cached with
  | Some price => ret price
  | None =>
      price <- (if api_key_set e then get_csfloat_price e market_hash
                else get_steam_market_price e market_hash) ;;
      set_item_cache market_hash price item_ttl ;;
      jitter <- random_uniform e (3 # 10) (8 # 10) ;;
      time_sleep jitter ;;
      ret price
  end.

(** ** Routes *)

Definition inventory_url (steamid : string) : string :=
  "https://steamcommunity.com/inventory/" ++ steamid ++ "/730/2?l=english&count=5000".

(** the [for item in items] loop of [value].  A [market_hash_name] that
    is truthy but not a string is taken to the [TypeError] that
    [requests.utils.quote] raises on it. *)
Fixpoint value_loop (e : env) (detailed : bool) (items : list json)
    (total_value : Q) (item_details : list (string * Q)) : M (Q * list (string * Q)) :=
  match items with
  | [] => ret (total_value, item_details)
  | item :: rest =>
      market_hash <- lift (dict_get item "market_hash_name" JNull) ;;
      if truthy market_hash then
        match market_hash with
        | JStr name =>
            price <- get_item_price e name ;;
            value_loop e detailed rest (total_value + price)%Q
              (if detailed then item_details ++ [(name, round2 price)] else item_details)
        | _ => raise TypeError
        end
      else value_loop e detailed rest total_value item_details
  end.

Definition item_json (it : string * Q) : json :=
  JObj [("name", JStr (fst it)); ("price_usd", JNum (snd it))].

Definition source_name (e : env) : string :=
  if api_key_set e then "CSFloat" else "Steam Market".

Definition error_body (msg : string) : json := JObj [("error", JStr msg)].

(** what [value] does with the inventory it fetched *)
Definition value_items (e : env) (steamid : string) (detailed : bool) (inv : json)
    : M (json * Z) :=
  has <- (if truthy inv then lift (py_in "descriptions" inv) else ret false) ;;
  if negb has then ret (error_body "Failed to fetch inventory", 502%Z)
  else
    items <- lift (dict_get inv "descriptions" (JArr [])) ;;
    if negb (truthy items) then ret (error_body "No items found", 404%Z)
    else
      l <- lift (py_iter items) ;;
      r <- value_loop e detailed l 0%Q [] ;;
      let (total_value, item_details) := r in
      set_cached_value steamid total_value value_ttl ;;
      let response :=
        [("steamid", JStr steamid);
         ("total", JNum (round2 total_value));
         ("cached", JBool false);
         ("source", JStr (source_name e))] in
      ret (JObj (if detailed
                 then response ++ [("items", JArr (map item_json (sorted_desc item_details)))]
                 else response),
           200%Z).

(** what [value] does from the inventory fetch on *)
Definition value_compute (e : env) (steamid : string) (detailed : bool) : M (json * Z) :=
  inv <- safe_request e (inventory_url steamid) None default_retries default_backoff ;;
  value_items e steamid detailed inv.

(** [request.args.get("detailed", "false").lower() == "true"] *)
Definition detailed_of (detailed_arg : option string) : bool :=
  String.eqb (PyStr.lower (match detailed_arg with Some a => a | None => "false" end)) "true".

(** the handler of [POST /value]: [trade_url] is what the form or the JSON
    body gives and [detailed_arg] the query argument, when present; the
    result is the JSON body and the status *)
Definition value (e : env) (trade_url : option string) (detailed_arg : option string)
    : M (json * Z) :=
  match extract_steamid trade_url with
  | None => ret (error_body "Invalid URL", 400%Z)
  | Some steamid =>
      if String.eqb steamid EmptyString then ret (error_body "Invalid URL", 400%Z)
      else
        let detailed := detailed_of detailed_arg in
        cached <- get_cached_value steamid ;;
        match cached with
        | Some total =>
            if negb detailed then
              ret (JObj [("steamid", JStr steamid); ("total", JNum total);
                         ("cached", JBool true)], 200%Z)
            else value_compute e steamid detailed
        | None => value_compute e steamid detailed
        end
  end.

(** ** Frames and sample runs *)

(** a run of the fetch wrapper leaves the tables and the random source
    alone; it only sends requests, sleeps and logs *)
Definition fetch_frame (w w' : world) : Prop :=
  item_prices w' = item_prices w
  /\ inventory_values w' = inventory_values w
  /\ drawn w' = drawn w
  /\ (sent w <= sent w')%nat
  /\ (now w <= now w')%Q
  /\ exists evs, trace w' = trace w ++ evs.

(** a run of price resolutions leaves the valuation cache alone and only
    adds to the requests and to the trace *)
Definition run_frame (w w' : world) : Prop :=
  inventory_values w' = inventory_values w
  /\ (sent w <= sent w')%nat
  /\ exists evs, trace w' = trace w ++ evs.

(** the pricing source the configuration selects: its decoder, URL and
    headers *)
Definition price_of (e : env) (data : json) : exn + Q :=
  if api_key_set e then csfloat_price_of data else steam_price_of data.

Definition price_url (e : env) (market_hash : string) : string :=
  if api_key_set e then csfloat_url market_hash else steam_market_url market_hash.

Definition price_headers (e : env) : option (list (string * string)) :=
  if api_key_set e then Some (csfloat_headers e) else None.

(** the jitter drawn at the [n]-th call of [random.random] *)
Definition jitter (e : env) (n : nat) : Q :=
  ((3 # 10) + ((8 # 10) - (3 # 10)) * Qmake (Z.of_N (entropy e n mod 2 ^ 53)) (2 ^ 53))%Q.

(** the world after a resolved miss: the price is stored for [item_ttl],
    one draw is used and the process has slept [j] *)
Definition resolved (market_hash : string) (price j : Q) (w : world) : world :=
  asleep j
    {| now := now w;
       item_prices := <[market_hash := (price, (now w + item_ttl)%Q)]> (item_prices w);
       inventory_values := inventory_values w;
       sent := sent w; drawn := S (drawn w); trace := trace w |}.

(** the world after [set_cached_value(db, steamid, total_value)] *)
Definition recorded (steamid : string) (total_value : Q) (w : world) : world :=
  {| now := now w; item_prices := item_prices w;
     inventory_values :=
       <[steamid := (total_value, (now w + value_ttl)%Q)]> (inventory_values w);
     sent := sent w; drawn := drawn w; trace := trace w |}.

(** the body of a response served from the valuation cache *)
Definition hit_body (steamid : string) (total : Q) : json :=
  JObj [("steamid", JStr steamid); ("total", JNum total); ("cached", JBool true)].

(** the body of a freshly computed response *)
Definition computed_body (e : env) (steamid : string) (detailed : bool)
    (total_value : Q) (item_details : list (string * Q)) : json :=
  let response :=
    [("steamid", JStr steamid);
     ("total", JNum (round2 total_value));
     ("cached", JBool false);
     ("source", JStr (source_name e))] in
  JObj (if detailed
        then response ++ [("items", JArr (map item_json (sorted_desc item_details)))]
        else response).







(** the same world with another valuation cache *)
Definition with_values (v : gmap string (Q * Q)) (w : world) : world :=
  {| now := now w; item_prices := item_prices w; inventory_values := v;
     sent := sent w; drawn := drawn w; trace := trace w |}.

(** a computation that neither reads nor writes the valuation cache *)
Definition blind {A} (c : M A) : Prop :=
  forall v w, c (with_values v w) = (fst (c w), with_values v (snd (c w))).

(** a computation that does not read the valuation cache: what it
    returns, and the world it leaves but for that cache, do not depend on
    it *)
Definition oblivious {A} (c : M A) : Prop :=
  forall v w,
    fst (c (with_values v w)) = fst (c w)
    /\ with_values ∅ (snd (c (with_values v w))) = with_values ∅ (snd (c w)).





(** a field of a JSON object *)
Definition field (k : string) (body : json) : option json :=
  match body with
  | JObj kv => assoc_last k kv
  | _ => None
  end.

(** an empty store at time 1000 *)
Definition w_start : world :=
  {| now := 1000; item_prices := ∅; inventory_values := ∅;
     sent := 0; drawn := 0; trace := [] |}.

(** the upstream that gives the listed answers in turn, and fails at the
    transport level from then on *)
Definition answers (l : list outcome) : nat -> outcome :=
  fun n => nth n l RequestException.

Definition env_of (key : option string) (l : list outcome) : env :=
  {| CSFLOAT_API_KEY := key; upstream := answers l; entropy := fun _ => 0%N |}.

Definition overview_payload : json :=
  JObj [("success", JBool true); ("lowest_price", JStr "$12.30")].

(** a run of [get_item_price] on a sample item: no key is configured and
    the price overview answers at once *)
Definition sample_env : env := env_of None [Response 200 (Some overview_payload)].

Definition sample_resolution : res Q * world :=
  get_item_price sample_env "AK-47 | Redline (Field-Tested)" w_start.

(** a user, and a store that holds a fresh total for them *)
Definition sample_url : option string :=
  Some "https://steamcommunity.com/profiles/76561198000000001/inventory".

Definition sample_steamid : string := "76561198000000001".

Definition w_cached : world := recorded sample_steamid (1234 # 100) w_start.

(** an inventory of one item whose overview price has three decimals *)
Definition subcent_inventory : json :=
  JObj [("descriptions", JArr [JObj [("market_hash_name", JStr "Sticker | Example")]])].

Definition subcent_env : env :=
  env_of None
    [Response 200 (Some subcent_inventory);
     Response 200 (Some (JObj [("success", JBool true); ("lowest_price", JStr "$0.123")]))].

Definition first_valuation : res (json * Z) * world :=
  value subcent_env sample_url None w_start.



(** the listings search, with a key configured, quotes a negative price
    for the one item of the inventory *)
Definition negative_env : env :=
  env_of (Some "secret")
    [Response 200 (Some subcent_inventory);
     Response 200 (Some (JArr [JObj [("price", JNum (- 500 # 1))]]))].




(** the first answer is a 200 whose body is nested deeper than the
    decoder recurses *)
Definition deep_body_env : env := env_of None [Unreadable RecursionError].

(** ** Notions for the properties of the rest of the file *)

(** an answer after which [safe_request] sleeps and tries again *)
Definition retryable (o : outcome) : bool :=
  match o with
  | Response status_code body =>
      if (status_code =? 200)%Z
      then match body with Some _ => false | None => true end
      else (status_code =? 429)%Z
  | RequestException => true
  | Unreadable _ => false
  end.

(** the seconds slept over [k] failed attempts in a row, the first of them
    at loop index [attempt] *)
Fixpoint backoff_total (backoff : Q) (attempt k : nat) : Q :=
  match k with
  | O => 0%Q
  | S k' => (delay backoff attempt + backoff_total backoff (S attempt) k')%Q
  end.

(** the world after [k] attempts in a row that were answered with
    something retryable, the first of them at loop index [attempt]: each
    is a request and the sleep that follows it *)
Fixpoint after_retries (backoff : Q) (url : string)
    (headers : option (list (string * string))) (attempt k : nat) (w : world) : world :=
  match k with
  | O => w
  | S k' =>
      after_retries backoff url headers (S attempt) k'
        (asleep (delay backoff attempt) (issue url headers w))
  end.

(** what [safe_request] returns on an answer it does not retry: the body
    of a 200, nothing for any other status *)
Definition payload_of (o : outcome) : json :=
  match o with
  | Response status_code (Some payload) =>
      if (status_code =? 200)%Z then payload else JNull
  | _ => JNull
  end.

(** how [safe_request] ends on an answer it does not retry: with that
    payload, or with the exception the decoding of the body let out *)
Definition decided (o : outcome) : res json :=
  match o with
  | Unreadable ex => Raise ex
  | _ => Ret (payload_of o)
  end.

(** a request that carries headers, and a request that goes to the
    listings service *)
Definition carries_headers (ev : event) : bool :=
  match ev with
  | Get _ (Some (_ :: _)) => true
  | _ => false
  end.

Definition to_csfloat (ev : event) : bool :=
  match ev with
  | Get url _ => String.prefix "https://api.csfloat.com/" url
  | Sleep _ => false
  end.

(** headers, and with them the key, go to the listings service only *)
Definition key_safe (ev : event) : bool := implb (carries_headers ev) (to_csfloat ev).

(** what a caller sees of an answer, the item list apart: the status and
    the fields of the body, or the exception *)
Definition summary (r : res (json * Z))
    : res (Z * list (option json)) :=
  match r with
  | Ret (body, status) =>
      Ret (status,
           map (fun k => field k body) ["steamid"; "total"; "cached"; "source"; "error"])
  | Raise ex => Raise ex
  end.

(** the market names the loop of [value] resolves, in order: those of the
    entries that are objects with a non-empty string under
    [market_hash_name] *)
Definition market_names (items : list json) : list string :=
  flat_map
    (fun item =>
       match dict_get item "market_hash_name" JNull with
       | inr (JStr name) => if String.eqb name EmptyString then [] else [name]
       | _ => []
       end)
    items.

Fixpoint sum_prices (prices : list (string * Q)) : Q :=
  match prices with
  | [] => 0%Q
  | p :: rest => (snd p + sum_prices rest)%Q
  end.

(** an entry of the inventory on which the loop does not fail: an object
    whose [market_hash_name] is a string or is falsy *)
Definition well_shaped (item : json) : bool :=
  match dict_get item "market_hash_name" JNull with
  | inr (JStr _) => true
  | inr v => negb (truthy v)
  | inl _ => false
  end.

(** [get_item_price] on each of the names in turn, every call in the
    world the one before left; the names with the prices returned *)
Fixpoint resolve_all (e : env) (names : list string) : M (list (string * Q)) :=
  match names with
  | [] => ret []
  | name :: rest =>
      price <- get_item_price e name ;;
      prices <- resolve_all e rest ;;
      ret ((name, price) :: prices)
  end.

(** [total_value += price] over the prices, in order *)
Definition accumulate (total_value : Q) (prices : list (string * Q)) : Q :=
  fold_left (fun acc p => (acc + snd p)%Q) prices total_value.

(** the (name, rounded price) entry of the detailed list *)
Definition rounded (p : string * Q) : string * Q := (fst p, round2 (snd p)).

(** an inventory of three items, two of them priced the same *)
Definition three_items : json :=
  JObj [("descriptions",
         JArr [JObj [("market_hash_name", JStr "Glock-18 | Fade")];
               JObj [("name", JStr "no market name")];
               JObj [("market_hash_name", JStr "AWP | Asiimov")];
               JObj [("market_hash_name", JStr "P250 | Sand Dune")]])].

Definition three_items_env : env :=
  env_of None
    [Response 200 (Some three_items);
     Response 200 (Some (JObj [("success", JBool true); ("lowest_price", JStr "$0.125")]));
     Response 200 (Some (JObj [("success", JBool true); ("median_price", JStr "$45.50")]));
     Response 200 (Some (JObj [("success", JBool true); ("lowest_price", JStr "$0.125")]))].

Definition three_items_valuation : res (json * Z) * world :=
  value three_items_env sample_url (Some "true") w_start.

(** the total a run of the loop ends with, or its exception *)
Definition loop_total (r : res (Q * list (string * Q))) : res Q :=
  match r with
  | Ret (total_value, _) => Ret total_value
  | Raise ex => Raise ex
  end.

(** * Properties *)

(** ** The string and number helpers on sample inputs *)

Example split_profiles :
  PyStr.split "/profiles/" "https://steamcommunity.com/profiles/7656/inventory"
  = ["https://steamcommunity.com"; "7656/inventory"].
Proof. reflexivity. Qed.

Example extract_steamid_profile :
  extract_steamid (Some "https://steamcommunity.com/profiles/7656/inventory") = Some "7656".
Proof. reflexivity. Qed.

Example extract_steamid_none : extract_steamid (Some "https://example.org/") = None.
Proof. reflexivity. Qed.

Example quote_redline :
  PyStr.quote "AK-47 | Redline (Field-Tested)"
  = "AK-47%20%7C%20Redline%20%28Field-Tested%29".
Proof. reflexivity. Qed.

Example clean_price_sample : clean_price " $1,234.50 " = "1234.50".
Proof. reflexivity. Qed.

Example float_of_price :
  PyFloat.of_string "1234.50" = PyFloat.Number (123450 # 100).
Proof. vm_compute. reflexivity. Qed.

Example float_of_exp :
  PyFloat.of_string " -1.5e-1" = PyFloat.Number (- 15 # 100).
Proof. vm_compute. reflexivity. Qed.

Example float_of_digit_groups :
  PyFloat.of_string "1_000.50" = PyFloat.Number (100050 # 100)
  /\ PyFloat.of_string "1__000" = PyFloat.Invalid
  /\ PyFloat.of_string "_1" = PyFloat.Invalid
  /\ PyFloat.of_string "1_" = PyFloat.Invalid
  /\ PyFloat.of_string "1._5" = PyFloat.Invalid.
Proof. vm_compute. repeat split; reflexivity. Qed.

Example float_of_junk :
  PyFloat.of_string "1.5 USD" = PyFloat.Invalid
  /\ PyFloat.of_string "" = PyFloat.Invalid
  /\ PyFloat.of_string "." = PyFloat.Invalid
  /\ PyFloat.of_string "- 1" = PyFloat.Invalid.
Proof. vm_compute. repeat split; reflexivity. Qed.

Example float_of_special :
  PyFloat.of_string "nan" = PyFloat.Beyond
  /\ PyFloat.of_string " -Infinity " = PyFloat.Beyond
  /\ PyFloat.of_string "+INF" = PyFloat.Beyond
  /\ PyFloat.of_string "1e400" = PyFloat.Beyond
  /\ PyFloat.of_string (String (ascii_of_N 194) (String (ascii_of_N 160) "1")) = PyFloat.Beyond.
Proof. vm_compute. repeat split; reflexivity. Qed.

Example round2_ties :
  (round2 (125 # 1000), round2 (135 # 1000), round2 (1236 # 1000))
  = (12 # 100, 14 # 100, 124 # 100).
Proof. reflexivity. Qed.

Example sorted_desc_stable :
  sorted_desc [("a", 1 # 1); ("b", 3 # 1); ("c", 1 # 1); ("d", 2 # 1)]
  = [("b", 3 # 1); ("d", 2 # 1); ("a", 1 # 1); ("c", 1 # 1)].
Proof. reflexivity. Qed.

(** ** The fetch wrapper *)

Lemma delay_linear (backoff : Q) (attempt : nat) :
  (delay backoff attempt == backoff * inject_Z (Z.of_nat (S attempt)))%Q.
Proof.
  unfold delay. rewrite Nat2Z.inj_succ. unfold Z.succ. reflexivity.
Qed.

Lemma delay_nonneg (backoff : Q) (attempt : nat) :
  (0 <= backoff)%Q -> Qle_bool 0 (delay backoff attempt) = true.
Proof.
  intros Hb. apply Qle_bool_iff. unfold delay.
  apply Qmult_le_0_compat; [exact Hb |].
  change 0%Q with (inject_Z 0). rewrite <- Zle_Qle. lia.
Qed.

Lemma delay_monotone (backoff : Q) (a b : nat) :
  (0 <= backoff)%Q -> (a <= b)%nat -> (delay backoff a <= delay backoff b)%Q.
Proof.
  intros Hb Hab. unfold delay.
  rewrite !(Qmult_comm backoff).
  apply Qmult_le_compat_r; [| exact Hb].
  rewrite <- Zle_Qle. lia.
Qed.

Lemma time_sleep_delay (backoff : Q) (attempt : nat) (w : world) :
  (0 <= backoff)%Q ->
  time_sleep (delay backoff attempt) w = (Ret tt, asleep (delay backoff attempt) w).
Proof.
  intros Hb. unfold time_sleep. now rewrite delay_nonneg.
Qed.

(** one turn of the loop on an answer that is retried *)
Lemma safe_request_loop_retry e url headers backoff k attempt w :
  (0 <= backoff)%Q ->
  match upstream e (sent w) with
  | Response status_code body =>
      status_code = 429%Z \/ (status_code = 200%Z /\ body = None)
  | RequestException => True
  | Unreadable _ => False
  end ->
  safe_request_loop e url headers backoff (S k) attempt w
  = safe_request_loop e url headers backoff k (S attempt)
      (asleep (delay backoff attempt) (issue url headers w)).
Proof.
  intros Hb Hup. cbn [safe_request_loop]. unfold bind at 1, requests_get.
  destruct (upstream e (sent w)) as [status_code body | | ex].
  - destruct Hup as [-> | [-> ->]]; cbn; unfold bind;
      now rewrite time_sleep_delay.
  - unfold bind. now rewrite time_sleep_delay.
  - contradiction.
Qed.

(** one turn of the loop on a 200 with a JSON body *)
Lemma safe_request_loop_success e url headers backoff k attempt w payload :
  upstream e (sent w) = Response 200 (Some payload) ->
  safe_request_loop e url headers backoff (S k) attempt w
  = (Ret payload, issue url headers w).
Proof.
  intros Hup. cbn [safe_request_loop]. unfold bind, requests_get.
  now rewrite Hup.
Qed.

(** one turn of the loop on any other status *)
Lemma safe_request_loop_abort e url headers backoff k attempt w status_code body :
  upstream e (sent w) = Response status_code body ->
  status_code <> 200%Z -> status_code <> 429%Z ->
  safe_request_loop e url headers backoff (S k) attempt w
  = (Ret JNull, issue url headers w).
Proof.
  intros Hup H200 H429. cbn [safe_request_loop]. unfold bind, requests_get.
  rewrite Hup.
  destruct (Z.eqb_spec status_code 200); [contradiction |].
  destruct (Z.eqb_spec status_code 429); [contradiction |].
  reflexivity.
Qed.

(** one turn of the loop on a 200 whose decoding raises something that is
    no [RequestException] *)
Lemma safe_request_loop_unreadable e url headers backoff k attempt w ex :
  upstream e (sent w) = Unreadable ex ->
  safe_request_loop e url headers backoff (S k) attempt w
  = (Raise ex, issue url headers w).
Proof.
  intros Hup. cbn [safe_request_loop]. unfold bind, requests_get.
  now rewrite Hup.
Qed.

Lemma fetch_frame_refl w : fetch_frame w w.
Proof.
  unfold fetch_frame.
  refine (conj eq_refl (conj eq_refl (conj eq_refl (conj (le_n _) (conj (Qle_refl _) _))))).
  exists []. now rewrite app_nil_r.
Qed.

Lemma fetch_frame_trans w1 w2 w3 :
  fetch_frame w1 w2 -> fetch_frame w2 w3 -> fetch_frame w1 w3.
Proof.
  intros (Hi & Hv & Hd & Hs & Hn & evs & Ht) (Hi' & Hv' & Hd' & Hs' & Hn' & evs' & Ht').
  unfold fetch_frame.
  refine (conj _ (conj _ (conj _ (conj _ (conj _ _))))); try congruence.
  - lia.
  - eapply Qle_trans; eassumption.
  - exists (evs ++ evs'). rewrite Ht', Ht. now rewrite app_assoc.
Qed.

Lemma fetch_frame_issue url headers w : fetch_frame w (issue url headers w).
Proof.
  unfold fetch_frame, issue, log. cbn.
  refine (conj eq_refl (conj eq_refl (conj eq_refl (conj _ (conj (Qle_refl _) _))))).
  - lia.
  - now exists [Get url headers].
Qed.

Lemma fetch_frame_asleep d w : (0 <= d)%Q -> fetch_frame w (asleep d w).
Proof.
  intros Hd. unfold fetch_frame, asleep, log, elapse. cbn.
  refine (conj eq_refl (conj eq_refl (conj eq_refl (conj (le_n _) (conj _ _))))).
  - lra.
  - now exists [Sleep d].
Qed.

(** what the loop of the fetch wrapper gives back after at most
    [remaining] requests: [JNull], or the body of a 200 among the answers
    it consumed, or the exception that the decoding of one of them let
    out *)
Lemma safe_request_loop_spec e url headers backoff :
  (0 <= backoff)%Q ->
  forall remaining attempt w,
  exists r w',
    safe_request_loop e url headers backoff remaining attempt w = (r, w')
    /\ match r with
       | Ret payload =>
           payload = JNull
           \/ exists n, (sent w <= n < sent w')%nat
                        /\ upstream e n = Response 200 (Some payload)
       | Raise ex =>
           exists n, (sent w <= n < sent w')%nat /\ upstream e n = Unreadable ex
       end
    /\ (sent w' <= sent w + remaining)%nat
    /\ fetch_frame w w'.
Proof.
  intros Hb. induction remaining as [| k IH]; intros attempt w.
  - exists (Ret JNull), w. cbn.
    refine (conj eq_refl (conj (or_introl eq_refl) (conj _ (fetch_frame_refl w)))). lia.
  - assert (Hstep : fetch_frame w (asleep (delay backoff attempt) (issue url headers w))).
    { eapply fetch_frame_trans; [apply fetch_frame_issue |].
      apply fetch_frame_asleep. apply Qle_bool_iff. now apply delay_nonneg. }
    assert (Hretry :
      safe_request_loop e url headers backoff k (S attempt)
        (asleep (delay backoff attempt) (issue url headers w))
      = safe_request_loop e url headers backoff (S k) attempt w ->
      exists r w',
        safe_request_loop e url headers backoff (S k) attempt w = (r, w')
        /\ match r with
           | Ret payload =>
               payload = JNull
               \/ exists n, (sent w <= n < sent w')%nat
                            /\ upstream e n = Response 200 (Some payload)
           | Raise ex =>
               exists n, (sent w <= n < sent w')%nat /\ upstream e n = Unreadable ex
           end
        /\ (sent w' <= sent w + S k)%nat
        /\ fetch_frame w w').
    { intros Heq.
      destruct (IH (S attempt) (asleep (delay backoff attempt) (issue url headers w)))
        as (r & w' & Hrun & Hpay & Hsent & Hfr).
      exists r, w'. rewrite <- Heq. split; [exact Hrun |].
      cbn in Hpay, Hsent. split; [| split].
      - destruct r as [payload | ex].
        + destruct Hpay as [-> | (n & Hn & Hup)]; [now left | right].
          exists n. split; [lia | exact Hup].
        + destruct Hpay as (n & Hn & Hup). exists n. split; [lia | exact Hup].
      - lia.
      - eapply fetch_frame_trans; eassumption. }
    destruct (upstream e (sent w)) as [status_code body | | ex] eqn:Hup.
    + destruct (Z.eq_dec status_code 200%Z) as [-> | H200].
      * destruct body as [payload |].
        -- exists (Ret payload), (issue url headers w).
           rewrite (safe_request_loop_success _ _ _ _ _ _ _ _ Hup).
           split; [reflexivity |]. cbn. split; [| split].
           ++ right. exists (sent w). split; [lia | exact Hup].
           ++ lia.
           ++ apply fetch_frame_issue.
        -- apply Hretry. symmetry. apply safe_request_loop_retry; [exact Hb |].
           rewrite Hup. now right.
      * destruct (Z.eq_dec status_code 429%Z) as [-> | H429].
        -- apply Hretry. symmetry. apply safe_request_loop_retry; [exact Hb |].
           rewrite Hup. now left.
        -- exists (Ret JNull), (issue url headers w).
           rewrite (safe_request_loop_abort _ _ _ _ _ _ _ _ _ Hup H200 H429).
           split; [reflexivity |]. cbn. split; [now left | split].
           ++ lia.
           ++ apply fetch_frame_issue.
    + apply Hretry. symmetry. apply safe_request_loop_retry; [exact Hb |].
      now rewrite Hup.
    + exists (Raise ex), (issue url headers w).
      rewrite (safe_request_loop_unreadable _ _ _ _ _ _ _ _ Hup).
      split; [reflexivity |]. cbn. split; [| split].
      * exists (sent w). split; [lia | exact Hup].
      * lia.
      * apply fetch_frame_issue.
Qed.

Lemma default_backoff_nonneg : (0 <= default_backoff)%Q.
Proof. unfold default_backoff, Qle. simpl. lia. Qed.

(** ** The claims on the fetch wrapper *)

(** C3: with a base delay that is not negative, on every 429 the wrapper
    sleeps [backoff * attemptNumber], a linear schedule, and goes on to
    the next attempt of its budget; and on the answers 429, 429, 200 it
    makes exactly three requests, sleeps [backoff * 1] and then
    [backoff * 2], which do not decrease, and returns the payload of the
    200. *)
Theorem safe_request_rate_limit_schedule e url headers backoff :
  (0 <= backoff)%Q ->
  (forall k attempt w b,
      upstream e (sent w) = Response 429 b ->
      safe_request_loop e url headers backoff (S k) attempt w
      = safe_request_loop e url headers backoff k (S attempt)
          (asleep (delay backoff attempt) (issue url headers w))
      /\ (delay backoff attempt == backoff * inject_Z (Z.of_nat (S attempt)))%Q)
  /\ (forall retries w b1 b2 payload,
      (3 <= retries)%Z ->
      upstream e (sent w) = Response 429 b1 ->
      upstream e (S (sent w)) = Response 429 b2 ->
      upstream e (S (S (sent w))) = Response 200 (Some payload) ->
      exists w',
        safe_request e url headers retries backoff w = (Ret payload, w')
        /\ sent w' = (sent w + 3)%nat
        /\ trace w' = trace w ++ [Get url headers; Sleep (delay backoff 0);
                                  Get url headers; Sleep (delay backoff 1);
                                  Get url headers]
        /\ (delay backoff 0 <= delay backoff 1)%Q).
Proof.
  intros Hb. split.
  - intros k attempt w b Hup. split; [| apply delay_linear].
    apply safe_request_loop_retry; [exact Hb |]. rewrite Hup. now left.
  - intros retries w b1 b2 payload Hretries H1 H2 H3. unfold safe_request.
    replace (Z.to_nat retries) with (S (S (S (Z.to_nat retries - 3)))) by lia.
    rewrite safe_request_loop_retry by (try exact Hb; rewrite H1; now left).
    rewrite safe_request_loop_retry by (try exact Hb; cbn; rewrite H2; now left).
    rewrite (safe_request_loop_success e url headers backoff _ _ _ payload) by exact H3.
    eexists. split; [reflexivity |]. cbn. split; [lia | split].
    + rewrite <- !app_assoc. reflexivity.
    + apply delay_monotone; [exact Hb | lia].
Qed.

Lemma safe_request_rate_limit_schedule_witness :
  let e := env_of None [Response 429 None; Response 429 None;
                        Response 200 (Some overview_payload)] in
  (safe_request_loop e "https://example.org/" None (3 # 2) 3 0 w_start
   = safe_request_loop e "https://example.org/" None (3 # 2) 2 1
       (asleep (delay (3 # 2) 0) (issue "https://example.org/" None w_start))
   /\ (delay (3 # 2) 0 == (3 # 2) * inject_Z (Z.of_nat 1))%Q)
  /\ exists w',
      safe_request e "https://example.org/" None 3 (3 # 2) w_start
      = (Ret overview_payload, w')
      /\ sent w' = 3%nat
      /\ trace w' = [Get "https://example.org/" None; Sleep (delay (3 # 2) 0);
                     Get "https://example.org/" None; Sleep (delay (3 # 2) 1);
                     Get "https://example.org/" None]
      /\ (delay (3 # 2) 0 <= delay (3 # 2) 1)%Q.
Proof.
  intros e.
  assert (Hb : (0 <= 3 # 2)%Q) by (unfold Qle; simpl; lia).
  pose proof (safe_request_rate_limit_schedule e "https://example.org/" None (3 # 2) Hb)
    as [Hrule Hrun].
  split.
  - exact (Hrule 2%nat 0%nat w_start None eq_refl).
  - refine (Hrun 3%Z w_start None None overview_payload _ eq_refl eq_refl eq_refl). lia.
Defined.

(** C4: a status other than 200 and 429 ends the wrapper at once: one
    request, no sleep, no payload, whatever is left of the budget. *)
Theorem safe_request_other_status_aborts e url headers retries backoff w status_code body :
  (1 <= retries)%Z ->
  upstream e (sent w) = Response status_code body ->
  status_code <> 200%Z ->
  status_code <> 429%Z ->
  exists w',
    safe_request e url headers retries backoff w = (Ret JNull, w')
    /\ sent w' = S (sent w)
    /\ trace w' = trace w ++ [Get url headers]
    /\ now w' = now w.
Proof.
  intros Hretries Hup H200 H429. unfold safe_request.
  replace (Z.to_nat retries) with (S (Z.to_nat retries - 1)) by lia.
  rewrite (safe_request_loop_abort e url headers backoff _ _ _ status_code body Hup H200 H429).
  eexists. split; [reflexivity |]. cbn. auto.
Qed.

Lemma safe_request_other_status_aborts_witness :
  exists w',
    safe_request (env_of None [Response 404 None]) "https://example.org/" None 3 (3 # 2) w_start
    = (Ret JNull, w')
    /\ sent w' = 1%nat
    /\ trace w' = [Get "https://example.org/" None]
    /\ now w' = 1000%Q.
Proof.
  refine (safe_request_other_status_aborts (env_of None [Response 404 None])
            "https://example.org/" None 3 (3 # 2) w_start 404 None _ eq_refl _ _).
  - lia.
  - lia.
  - lia.
Defined.

(** C7, as stated, fails: a 200 whose body is nested deeper than the
    decoder recurses makes [r.json()] raise [RecursionError], which is no
    [RequestException], and the exception leaves the wrapper. *)
Lemma unreadable_body_escapes :
  safe_request deep_body_env "https://example.org/" None default_retries default_backoff
    w_start
  = (Raise RecursionError, issue "https://example.org/" None w_start)
  /\ ~ exists payload w',
        safe_request deep_body_env "https://example.org/" None default_retries
          default_backoff w_start
        = (Ret payload, w').
Proof.
  split; [reflexivity |]. intros (payload & w' & Hrun). discriminate Hrun.
Qed.

(** C7, amended: whatever the URL, the headers, the budget and the answers
    of the upstream, with a base delay that is not negative the wrapper
    ends in one of three ways: with a decoded payload, the body of a 200
    it received; with [JNull]; or with the exception that [r.json()]
    raised on a 200 it received and that is no [RequestException].  So it
    returns whenever the answers are statuses, transport failures and
    bodies that are not JSON. *)
Theorem safe_request_never_raises e url headers retries backoff w :
  (0 <= backoff)%Q ->
  exists r w',
    safe_request e url headers retries backoff w = (r, w')
    /\ match r with
       | Ret payload =>
           payload = JNull
           \/ exists n, (sent w <= n < sent w')%nat
                        /\ upstream e n = Response 200 (Some payload)
       | Raise ex =>
           exists n, (sent w <= n < sent w')%nat /\ upstream e n = Unreadable ex
       end
    /\ ((forall n ex, (sent w <= n < sent w')%nat -> upstream e n <> Unreadable ex) ->
        exists payload, r = Ret payload).
Proof.
  intros Hb. unfold safe_request.
  destruct (safe_request_loop_spec e url headers backoff Hb (Z.to_nat retries) 0 w)
    as (r & w' & Hrun & Hpay & _).
  exists r, w'. refine (conj Hrun (conj Hpay _)).
  intros Hclean. destruct r as [payload | ex]; [now exists payload |].
  destruct Hpay as (n & Hn & Hup). now destruct (Hclean n ex Hn).
Qed.

Lemma safe_request_never_raises_witness :
  let e := env_of None [RequestException; Response 200 None; Response 500 None] in
  exists r w',
    safe_request e "https://example.org/" None 3 (3 # 2) w_start = (r, w')
    /\ match r with
       | Ret payload =>
           payload = JNull
           \/ exists n, (sent w_start <= n < sent w')%nat
                        /\ upstream e n = Response 200 (Some payload)
       | Raise ex =>
           exists n, (sent w_start <= n < sent w')%nat /\ upstream e n = Unreadable ex
       end
    /\ ((forall n ex, (sent w_start <= n < sent w')%nat -> upstream e n <> Unreadable ex) ->
        exists payload, r = Ret payload).
Proof.
  intros e.
  apply (safe_request_never_raises e "https://example.org/" None 3 (3 # 2) w_start).
  unfold Qle. simpl. lia.
Defined.

(** with a negative base delay the sleep after a 429 raises, and the
    exception leaves the wrapper *)
Example safe_request_negative_backoff :
  fst (safe_request (env_of None [Response 429 None]) "https://example.org/" None 3
         (- 1 # 1) w_start)
  = Raise ValueError.
Proof. reflexivity. Qed.

(** three 429 in a row use the budget up: three requests, three sleeps of
    1.5, 3 and 4.5 seconds, no payload *)
Example safe_request_exhausted :
  let run := safe_request
               (env_of None [Response 429 None; Response 429 None; Response 429 None;
                             Response 200 (Some overview_payload)])
               "https://example.org/" None default_retries default_backoff w_start in
  fst run = Ret JNull
  /\ sent (snd run) = 3%nat
  /\ map (fun ev => match ev with Sleep d => Some (Qred d) | Get _ _ => None end)
         (trace (snd run))
     = [None; Some (3 # 2)%Q; None; Some (3 # 1)%Q; None; Some (9 # 2)%Q].
Proof. vm_compute. repeat split. Qed.

Lemma lift_run {A} (r : exn + A) (w : world) :
  lift r w = (match r with inl ex => Raise ex | inr a => Ret a end, w).
Proof. now destruct r. Qed.

(** ** Price resolution *)

Lemma safe_request_loop_first e url headers backoff :
  (0 <= backoff)%Q ->
  forall k attempt w,
  exists r w',
    safe_request_loop e url headers backoff (S k) attempt w = (r, w')
    /\ match r with
       | Ret payload =>
           payload = JNull
           \/ exists n, (sent w <= n < sent w')%nat
                        /\ upstream e n = Response 200 (Some payload)
       | Raise ex =>
           exists n, (sent w <= n < sent w')%nat /\ upstream e n = Unreadable ex
       end
    /\ fetch_frame w w'
    /\ fetch_frame (issue url headers w) w'.
Proof.
  intros Hb k attempt w.
  destruct (safe_request_loop_spec e url headers backoff Hb (S k) attempt w)
    as (r & w' & Hrun & Hpay & _ & Hfr).
  exists r, w'. refine (conj Hrun (conj Hpay (conj Hfr _))).
  assert (Hretry :
    safe_request_loop e url headers backoff (S k) attempt w
    = safe_request_loop e url headers backoff k (S attempt)
        (asleep (delay backoff attempt) (issue url headers w)) ->
    fetch_frame (issue url headers w) w').
  { intros Heq. rewrite Heq in Hrun.
    destruct (safe_request_loop_spec e url headers backoff Hb k (S attempt)
                (asleep (delay backoff attempt) (issue url headers w)))
      as (r2 & w2 & Hrun2 & _ & _ & Hfr2).
    rewrite Hrun2 in Hrun. injection Hrun as _ <-.
    eapply fetch_frame_trans; [| exact Hfr2].
    apply fetch_frame_asleep. apply Qle_bool_iff. now apply delay_nonneg. }
  destruct (upstream e (sent w)) as [status_code body | | ex] eqn:Hup.
  - destruct (Z.eq_dec status_code 200%Z) as [-> | H200].
    + destruct body as [p |].
      * rewrite (safe_request_loop_success e url headers backoff k attempt w p Hup) in Hrun.
        injection Hrun as _ <-. apply fetch_frame_refl.
      * apply Hretry. apply safe_request_loop_retry; [exact Hb |]. rewrite Hup. now right.
    + destruct (Z.eq_dec status_code 429%Z) as [-> | H429].
      * apply Hretry. apply safe_request_loop_retry; [exact Hb |]. rewrite Hup. now left.
      * rewrite (safe_request_loop_abort e url headers backoff k attempt w _ _ Hup H200 H429)
          in Hrun.
        injection Hrun as _ <-. apply fetch_frame_refl.
  - apply Hretry. apply safe_request_loop_retry; [exact Hb |]. now rewrite Hup.
  - rewrite (safe_request_loop_unreadable e url headers backoff k attempt w ex Hup) in Hrun.
    injection Hrun as _ <-. apply fetch_frame_refl.
Qed.

(** a fetch with the default budget ends, has sent at least one request,
    and begins its part of the trace with it *)
Lemma safe_request_default_spec e url headers w :
  exists r w',
    safe_request e url headers default_retries default_backoff w = (r, w')
    /\ match r with
       | Ret data =>
           data = JNull
           \/ exists n, (sent w <= n < sent w')%nat
                        /\ upstream e n = Response 200 (Some data)
       | Raise ex =>
           exists n, (sent w <= n < sent w')%nat /\ upstream e n = Unreadable ex
       end
    /\ fetch_frame w w'
    /\ (sent w < sent w')%nat
    /\ exists evs, trace w' = trace w ++ Get url headers :: evs.
Proof.
  destruct (safe_request_loop_first e url headers default_backoff
              default_backoff_nonneg 2 0 w)
    as (r & w' & Hrun & Hpay & Hfr & Hfirst).
  exists r, w'. refine (conj Hrun (conj Hpay (conj Hfr _))).
  destruct Hfirst as (_ & _ & _ & Hs & _ & evs & Ht). cbn in Hs, Ht.
  split; [lia |]. exists evs. rewrite Ht. now rewrite <- app_assoc.
Qed.

Lemma jitter_bounds e n : (3 # 10 <= jitter e n)%Q /\ (jitter e n < 8 # 10)%Q.
Proof.
  unfold jitter.
  set (u := Qmake (Z.of_N (entropy e n mod 2 ^ 53)) (2 ^ 53)).
  assert (Hu : (0 <= u)%Q /\ (u < 1)%Q).
  { unfold u, Qle, Qlt. cbn [Qnum Qden].
    pose proof (N.mod_lt (entropy e n) (2 ^ 53) ltac:(discriminate)) as Hlt.
    change (Z.pos (2 ^ 53)) with (Z.of_N (2 ^ 53)).
    generalize dependent (entropy e n mod 2 ^ 53)%N. intros x.
    generalize (2 ^ 53)%N. intros K Hlt. lia. }
  destruct Hu as [Hu0 Hu1]. split; lra.
Qed.

Lemma fresh_lt w value expires : (now w < expires)%Q -> fresh w (value, expires) = true.
Proof.
  intros Hlt. unfold fresh. cbn. apply negb_true_iff.
  destruct (Qle_bool expires (now w)) eqn:Hle; [| reflexivity].
  apply Qle_bool_iff in Hle. exfalso. apply (Qlt_not_le _ _ Hlt Hle).
Qed.

Lemma select_fresh_hit w (table : gmap string (Q * Q)) key value expires :
  table !! key = Some (value, expires) -> (now w < expires)%Q ->
  select_fresh w table key = Some value.
Proof.
  intros Hrow Hlt. unfold select_fresh. rewrite Hrow.
  now rewrite fresh_lt.
Qed.

Lemma get_item_price_hit e market_hash w price :
  select_fresh w (item_prices w) market_hash = Some price ->
  get_item_price e market_hash w = (Ret price, w).
Proof.
  intros Hhit. unfold get_item_price, bind, get_item_cache. now rewrite Hhit.
Qed.

Lemma safe_request_price_url e market_hash :
  (if api_key_set e then get_csfloat_price e market_hash
   else get_steam_market_price e market_hash)
  = (data <- safe_request e (price_url e market_hash) (price_headers e)
               default_retries default_backoff ;;
     lift (price_of e data)).
Proof.
  unfold price_url, price_headers, price_of, get_csfloat_price, get_steam_market_price.
  now destruct (api_key_set e).
Qed.

(** a miss: the fetch, then the store, the draw and the jitter sleep *)
Lemma get_item_price_miss e market_hash w data wf :
  select_fresh w (item_prices w) market_hash = None ->
  safe_request e (price_url e market_hash) (price_headers e)
    default_retries default_backoff w = (Ret data, wf) ->
  get_item_price e market_hash w
  = match price_of e data with
    | inl ex => (Raise ex, wf)
    | inr price => (Ret price, resolved market_hash price (jitter e (drawn wf)) wf)
    end.
Proof.
  intros Hmiss Hrun. unfold get_item_price.
  unfold bind at 1. unfold get_item_cache. rewrite Hmiss.
  rewrite safe_request_price_url. unfold bind. rewrite Hrun.
  destruct (price_of e data) as [ex | price]; cbn; [reflexivity |].
  unfold time_sleep. fold (jitter e (drawn wf)).
  destruct (jitter_bounds e (drawn wf)) as [Hlo _].
  assert (Hj : Qle_bool 0 (jitter e (drawn wf)) = true).
  { apply Qle_bool_iff. lra. }
  rewrite Hj. reflexivity.
Qed.

(** a miss on which the fetch itself ends with an exception *)
Lemma get_item_price_fetch_raises e market_hash w ex wf :
  select_fresh w (item_prices w) market_hash = None ->
  safe_request e (price_url e market_hash) (price_headers e)
    default_retries default_backoff w = (Raise ex, wf) ->
  get_item_price e market_hash w = (Raise ex, wf).
Proof.
  intros Hmiss Hrun. unfold get_item_price.
  unfold bind at 1. unfold get_item_cache. rewrite Hmiss.
  rewrite safe_request_price_url. unfold bind. now rewrite Hrun.
Qed.

(** C2: on a hit [get_item_price] returns the cached price and leaves the
    world as it is: no request, no sleep.  On a miss that returns, the
    requests come first and the jitter sleep, between 0.3 and 0.8, is the
    last thing done; resolving the same item again, any time in the next
    3599 seconds, gives the same price and leaves the world as it is. *)
Theorem get_item_price_idempotent e market_hash w :
  (forall price expires,
      item_prices w !! market_hash = Some (price, expires) ->
      (now w < expires)%Q ->
      get_item_price e market_hash w = (Ret price, w))
  /\ (forall price w1,
      select_fresh w (item_prices w) market_hash = None ->
      get_item_price e market_hash w = (Ret price, w1) ->
      (sent w < sent w1)%nat
      /\ (exists evs j,
            trace w1 = trace w ++ Get (price_url e market_hash) (price_headers e)
                                   :: evs ++ [Sleep j]
            /\ (3 # 10 <= j)%Q /\ (j <= 8 # 10)%Q)
      /\ forall dt,
          (0 <= dt)%Q -> (dt < 3599)%Q ->
          get_item_price e market_hash (elapse dt w1) = (Ret price, elapse dt w1)
          /\ sent (elapse dt w1) = sent w1
          /\ trace (elapse dt w1) = trace w1).
Proof.
  split.
  - intros price expires Hrow Hlt. apply get_item_price_hit.
    eapply select_fresh_hit; eassumption.
  - intros price w1 Hmiss Hrun.
    destruct (safe_request_default_spec e (price_url e market_hash) (price_headers e) w)
      as ([data | ex] & wf & Hfetch & _ & Hfr & Hsent & evs & Htrace);
      [| rewrite (get_item_price_fetch_raises e market_hash w ex wf Hmiss Hfetch) in Hrun;
         discriminate].
    rewrite (get_item_price_miss e market_hash w data wf Hmiss Hfetch) in Hrun.
    destruct (price_of e data) as [ex | p]; [discriminate |].
    injection Hrun as -> <-.
    destruct (jitter_bounds e (drawn wf)) as [Hlo Hhi].
    split; [exact Hsent | split].
    + exists evs, (jitter e (drawn wf)). split; [| split; [exact Hlo | lra]].
      cbn. rewrite Htrace. rewrite <- app_assoc. reflexivity.
    + intros dt Hdt0 Hdt. split; [| split; reflexivity].
      apply get_item_price_hit.
      apply select_fresh_hit with (expires := (now wf + item_ttl)%Q).
      * cbn. apply lookup_insert_eq.
      * cbn. unfold item_ttl. lra.
Qed.

Lemma get_item_price_idempotent_witness :
  exists price,
    sample_resolution = (Ret price, snd sample_resolution)
    /\ get_item_price sample_env "AK-47 | Redline (Field-Tested)"
         (elapse 60 (snd sample_resolution))
       = (Ret price, elapse 60 (snd sample_resolution))
    /\ get_item_price sample_env "AK-47 | Redline (Field-Tested)" (snd sample_resolution)
       = (Ret price, snd sample_resolution).
Proof.
  exists (1230 # 100)%Q.
  assert (Hrun : sample_resolution = (Ret (1230 # 100)%Q, snd sample_resolution))
    by (vm_compute; reflexivity).
  split; [exact Hrun |]. split.
  - refine (proj1 (proj2 (proj2
      (proj2 (get_item_price_idempotent sample_env "AK-47 | Redline (Field-Tested)"
                w_start)
         (1230 # 100)%Q (snd sample_resolution) _ Hrun)) 60%Q _ _)).
    + vm_compute. reflexivity.
    + unfold Qle. simpl. lia.
    + unfold Qlt. simpl. lia.
  - refine (proj1 (get_item_price_idempotent sample_env "AK-47 | Redline (Field-Tested)"
                     (snd sample_resolution))
              (1230 # 100)%Q (now w_start + item_ttl)%Q _ _).
    + vm_compute. reflexivity.
    + vm_compute. reflexivity.
Defined.

(** the three ways [get_item_price] runs: a hit; a miss whose fetch
    returns; a miss whose fetch ends with an exception *)
Lemma get_item_price_cases e market_hash w :
  (exists price,
      select_fresh w (item_prices w) market_hash = Some price
      /\ get_item_price e market_hash w = (Ret price, w))
  \/ (select_fresh w (item_prices w) market_hash = None
      /\ exists data wf,
          (data = JNull \/ exists n, upstream e n = Response 200 (Some data))
          /\ fetch_frame w wf
          /\ (sent w < sent wf)%nat
          /\ get_item_price e market_hash w
             = match price_of e data with
               | inl ex => (Raise ex, wf)
               | inr price =>
                   (Ret price, resolved market_hash price (jitter e (drawn wf)) wf)
               end)
  \/ (select_fresh w (item_prices w) market_hash = None
      /\ exists ex wf,
          fetch_frame w wf
          /\ (sent w < sent wf)%nat
          /\ get_item_price e market_hash w = (Raise ex, wf)).
Proof.
  destruct (select_fresh w (item_prices w) market_hash) as [price |] eqn:Hsel.
  - left. exists price. split; [reflexivity |]. now apply get_item_price_hit.
  - right.
    destruct (safe_request_default_spec e (price_url e market_hash) (price_headers e) w)
      as ([data | ex] & wf & Hfetch & Hpay & Hfr & Hsent & _).
    + left. split; [reflexivity |].
      exists data, wf. split; [| split; [exact Hfr | split; [exact Hsent |]]].
      * destruct Hpay as [-> | (n & _ & Hup)]; [now left | right; now exists n].
      * now apply get_item_price_miss.
    + right. split; [reflexivity |].
      exists ex, wf. refine (conj Hfr (conj Hsent _)).
      now apply get_item_price_fetch_raises.
Qed.

Lemma run_frame_refl w : run_frame w w.
Proof.
  refine (conj eq_refl (conj (le_n _) _)). exists []. now rewrite app_nil_r.
Qed.

Lemma run_frame_trans w1 w2 w3 : run_frame w1 w2 -> run_frame w2 w3 -> run_frame w1 w3.
Proof.
  intros (Hv & Hs & evs & Ht) (Hv' & Hs' & evs' & Ht').
  refine (conj _ (conj _ _)); [congruence | lia |].
  exists (evs ++ evs'). rewrite Ht', Ht. now rewrite app_assoc.
Qed.

Lemma fetch_frame_run_frame w w' : fetch_frame w w' -> run_frame w w'.
Proof.
  intros (_ & Hv & _ & Hs & _ & Ht). exact (conj Hv (conj Hs Ht)).
Qed.

Lemma run_frame_resolved market_hash price j w :
  run_frame w (resolved market_hash price j w).
Proof.
  refine (conj eq_refl (conj (le_n _) _)). now exists [Sleep j].
Qed.

Lemma get_item_price_frame e market_hash w r w' :
  get_item_price e market_hash w = (r, w') -> run_frame w w'.
Proof.
  intros Hrun.
  destruct (get_item_price_cases e market_hash w)
    as [(price & _ & Hhit) | [(_ & data & wf & _ & Hfr & _ & Hmiss)
                             | (_ & ex & wf & Hfr & _ & Hraise)]].
  - rewrite Hhit in Hrun. injection Hrun as _ <-. apply run_frame_refl.
  - rewrite Hmiss in Hrun. apply fetch_frame_run_frame in Hfr.
    destruct (price_of e data); injection Hrun as _ <-; [exact Hfr |].
    eapply run_frame_trans; [exact Hfr | apply run_frame_resolved].
  - rewrite Hraise in Hrun. injection Hrun as _ <-. now apply fetch_frame_run_frame.
Qed.

(** an invariant of the world that every price resolution keeps, with a
    property of the prices that come back, is kept by the loop of [value];
    the total stays in any set closed under adding such prices *)
Lemma value_loop_invariant e detailed (I : world -> Prop) (P S : Q -> Prop) :
  (forall market_hash w, I w ->
     match get_item_price e market_hash w with
     | (Ret price, w') => I w' /\ P price
     | (Raise _, w') => I w'
     end) ->
  (forall total price, S total -> P price -> S (total + price)%Q) ->
  forall items total_value item_details w,
    I w -> S total_value ->
    match value_loop e detailed items total_value item_details w with
    | (Ret (total, _), w') => I w' /\ S total
    | (Raise _, w') => I w'
    end.
Proof.
  intros Hstep Hadd. induction items as [| item rest IH];
    intros total_value item_details w Hw Htotal.
  - cbn. now split.
  - cbn [value_loop]. unfold bind at 1. rewrite lift_run.
    destruct (dict_get item "market_hash_name" JNull) as [ex | market_hash];
      [exact Hw |].
    destruct (truthy market_hash); [| now apply IH].
    destruct market_hash as [| b | q | name | l | kv]; try exact Hw.
    unfold bind. specialize (Hstep name w Hw).
    destruct (get_item_price e name w) as [[price | ex] w1]; [| exact Hstep].
    destruct Hstep as [Hw1 Hprice]. apply IH; [exact Hw1 |]. now apply Hadd.
Qed.

Lemma value_loop_frame e detailed items total_value item_details w r w' :
  value_loop e detailed items total_value item_details w = (r, w') -> run_frame w w'.
Proof.
  intros Hrun.
  pose proof (value_loop_invariant e detailed (run_frame w) (fun _ => True) (fun _ => True))
    as Hinv.
  specialize (Hinv
    (fun market_hash w1 Hw1 =>
       match get_item_price e market_hash w1 as x
         return get_item_price e market_hash w1 = x ->
                match x with
                | (Ret _, w2) => run_frame w w2 /\ True
                | (Raise _, w2) => run_frame w w2
                end
       with
       | (Ret price, w2) => fun Heq =>
           conj (run_frame_trans _ _ _ Hw1 (get_item_price_frame _ _ _ _ _ Heq)) I
       | (Raise ex, w2) => fun Heq =>
           run_frame_trans _ _ _ Hw1 (get_item_price_frame _ _ _ _ _ Heq)
       end eq_refl)
    (fun _ _ _ _ => I) items total_value item_details w (run_frame_refl w) I).
  rewrite Hrun in Hinv. destruct r as [[total details] | ex]; [apply Hinv | exact Hinv].
Qed.

(** ** The handler *)

(** how a run on a fetched inventory ends: at once, with an error
    response or an exception, or as the loop over the items ends *)
Lemma value_items_cases e steamid detailed inv wf r w' :
  value_items e steamid detailed inv wf = (r, w') ->
  (w' = wf
   /\ ((exists ex, r = Raise ex)
       \/ exists msg status, r = Ret (error_body msg, status) /\ status <> 200%Z))
  \/ exists l,
      match value_loop e detailed l 0%Q [] wf with
      | (Ret (total_value, item_details), w2) =>
          r = Ret (computed_body e steamid detailed total_value item_details, 200%Z)
          /\ w' = recorded steamid total_value w2
      | (Raise ex, w2) => r = Raise ex /\ w' = w2
      end.
Proof.
  unfold value_items. intros Hrun.
  unfold bind at 1 in Hrun.
  destruct ((if truthy inv then lift (py_in "descriptions" inv) else ret false) wf)
    as [[has | ex] w1] eqn:Hhas;
    (assert (w1 = wf) as ->
      by (destruct (truthy inv); [rewrite lift_run in Hhas | unfold ret in Hhas];
          congruence)).
  2: { injection Hrun as <- <-. left. split; [reflexivity | left; now eexists]. }
  destruct has; cbn [negb] in Hrun.
  2: { injection Hrun as <- <-. left. split; [reflexivity | right].
       eexists _, _. split; [reflexivity | discriminate]. }
  unfold bind at 1 in Hrun. rewrite lift_run in Hrun.
  destruct (dict_get inv "descriptions" (JArr [])) as [ex | items].
  { injection Hrun as <- <-. left. split; [reflexivity | left; now eexists]. }
  destruct (truthy items); cbn [negb] in Hrun.
  2: { injection Hrun as <- <-. left. split; [reflexivity | right].
       eexists _, _. split; [reflexivity | discriminate]. }
  unfold bind at 1 in Hrun. rewrite lift_run in Hrun.
  destruct (py_iter items) as [ex | l].
  { injection Hrun as <- <-. left. split; [reflexivity | left; now eexists]. }
  right. exists l. unfold bind at 1 in Hrun.
  destruct (value_loop e detailed l 0%Q [] wf) as [[[total_value item_details] | ex] w2];
    injection Hrun as <- <-; split; reflexivity.
Qed.

Lemma value_items_grows e steamid detailed inv wf r w' :
  value_items e steamid detailed inv wf = (r, w') ->
  (sent wf <= sent w')%nat /\ exists evs, trace w' = trace wf ++ evs.
Proof.
  intros Hrun.
  destruct (value_items_cases e steamid detailed inv wf r w' Hrun)
    as [[-> _] | (l & Hloop)].
  - split; [lia |]. exists []. now rewrite app_nil_r.
  - destruct (value_loop e detailed l 0%Q [] wf) as [[[t ds] | ex] w2] eqn:Heq;
      destruct Hloop as [_ ->];
      destruct (value_loop_frame _ _ _ _ _ _ _ _ Heq) as (_ & Hs & Ht);
      now split.
Qed.

(** a run of [value_compute] sends the inventory request first *)
Lemma value_compute_opens e steamid detailed w :
  (sent w < sent (snd (value_compute e steamid detailed w)))%nat
  /\ exists evs,
      trace (snd (value_compute e steamid detailed w))
      = trace w ++ Get (inventory_url steamid) None :: evs.
Proof.
  unfold value_compute, bind.
  destruct (safe_request_default_spec e (inventory_url steamid) None w)
    as ([inv | ex] & wf & Hfetch & _ & _ & Hsent & evs & Htrace);
    rewrite Hfetch; [| cbn [snd]; split; [exact Hsent | now exists evs]].
  destruct (value_items e steamid detailed inv wf) as [r w'] eqn:Hitems.
  destruct (value_items_grows e steamid detailed inv wf r w' Hitems) as [Hs (evs2 & Ht)].
  cbn [snd]. split; [lia |].
  exists (evs ++ evs2). rewrite Ht, Htrace. now rewrite <- app_assoc.
Qed.

(** a run of [value_compute] that answers 200 went through the loop and
    recorded the total *)
Lemma value_compute_200 e steamid detailed w body w' :
  value_compute e steamid detailed w = (Ret (body, 200%Z), w') ->
  exists inv wf l total_value item_details w2,
    safe_request e (inventory_url steamid) None default_retries default_backoff w
    = (Ret inv, wf)
    /\ value_loop e detailed l 0%Q [] wf = (Ret (total_value, item_details), w2)
    /\ w' = recorded steamid total_value w2
    /\ body = computed_body e steamid detailed total_value item_details.
Proof.
  unfold value_compute. intros Hrun.
  unfold bind at 1 in Hrun.
  destruct (safe_request e (inventory_url steamid) None default_retries default_backoff w)
    as [[inv | ex] wf] eqn:Hfetch; [| discriminate].
  destruct (value_items_cases e steamid detailed inv wf _ _ Hrun)
    as [[_ [(ex & Hex) | (msg & status & Hmsg & Hst)]] | (l & Hloop)].
  - discriminate.
  - injection Hmsg as _ <-. now destruct Hst.
  - destruct (value_loop e detailed l 0%Q [] wf) as [[[t ds] | ex] w2] eqn:Heq;
      destruct Hloop as [Hr ->]; [| discriminate].
    injection Hr as ->. now exists inv, wf, l, t, ds, w2.
Qed.

(** the two ways in which [value] answers 200 *)
Lemma value_200 e trade_url detailed_arg w body w' :
  value e trade_url detailed_arg w = (Ret (body, 200%Z), w') ->
  exists steamid,
    extract_steamid trade_url = Some steamid
    /\ steamid <> EmptyString
    /\ ((exists total,
           select_fresh w (inventory_values w) steamid = Some total
           /\ detailed_of detailed_arg = false
           /\ w' = w
           /\ body = hit_body steamid total)
        \/ (value_compute e steamid (detailed_of detailed_arg) w = (Ret (body, 200%Z), w')
            /\ (detailed_of detailed_arg = true
                \/ select_fresh w (inventory_values w) steamid = None))).
Proof.
  unfold value. intros Hrun.
  destruct (extract_steamid trade_url) as [steamid |]; [| discriminate].
  destruct (String.eqb steamid EmptyString) eqn:Hne; [discriminate |].
  apply String.eqb_neq in Hne.
  exists steamid. split; [reflexivity | split; [exact Hne |]].
  unfold bind, get_cached_value in Hrun.
  destruct (select_fresh w (inventory_values w) steamid) as [total |].
  - destruct (detailed_of detailed_arg); cbn [negb] in Hrun.
    + right. split; [exact Hrun | now left].
    + left. exists total. unfold ret in Hrun. injection Hrun as <- <-.
      repeat split.
  - right. split; [exact Hrun | now right].
Qed.

(** a fresh total and no detail asked for: the cached total is the answer *)
Lemma value_hit e trade_url detailed_arg w steamid total expires :
  extract_steamid trade_url = Some steamid ->
  steamid <> EmptyString ->
  detailed_of detailed_arg = false ->
  inventory_values w !! steamid = Some (total, expires) ->
  (now w < expires)%Q ->
  value e trade_url detailed_arg w = (Ret (hit_body steamid total, 200%Z), w).
Proof.
  intros Hid Hne Hflag Hrow Hlt.
  unfold value. rewrite Hid.
  apply String.eqb_neq in Hne. rewrite Hne.
  unfold bind, get_cached_value.
  now rewrite (select_fresh_hit w _ steamid total expires Hrow Hlt), Hflag.
Qed.

(** C1: with a fresh total in the valuation cache and no detail asked for,
    [value] answers 200 with that total and the cache-hit flag, and leaves
    the world as it is: no request is sent, no answer of the upstream is
    consumed. *)
Theorem value_cache_hit e trade_url detailed_arg w steamid total expires :
  extract_steamid trade_url = Some steamid ->
  steamid <> EmptyString ->
  detailed_of detailed_arg = false ->
  inventory_values w !! steamid = Some (total, expires) ->
  (now w < expires)%Q ->
  exists body w',
    value e trade_url detailed_arg w = (Ret (body, 200%Z), w')
    /\ field "total" body = Some (JNum total)
    /\ field "cached" body = Some (JBool true)
    /\ field "steamid" body = Some (JStr steamid)
    /\ w' = w
    /\ sent w' = sent w
    /\ trace w' = trace w.
Proof.
  intros Hid Hne Hflag Hrow Hlt.
  exists (hit_body steamid total), w.
  rewrite (value_hit e trade_url detailed_arg w steamid total expires) by assumption.
  repeat split.
Qed.

Lemma value_cache_hit_witness :
  exists body w',
    value sample_env sample_url None w_cached = (Ret (body, 200%Z), w')
    /\ field "total" body = Some (JNum (1234 # 100))
    /\ field "cached" body = Some (JBool true)
    /\ field "steamid" body = Some (JStr sample_steamid)
    /\ w' = w_cached
    /\ sent w' = sent w_cached
    /\ trace w' = trace w_cached.
Proof.
  refine (value_cache_hit sample_env sample_url None w_cached sample_steamid
            (1234 # 100) (now w_start + value_ttl)%Q _ _ _ _ _).
  - reflexivity.
  - discriminate.
  - reflexivity.
  - vm_compute. reflexivity.
  - unfold Qlt. simpl. lia.
Defined.

(** C9, as stated, fails on a cache hit: the body has no [source]. *)
Lemma cache_hit_has_no_source :
  exists body w',
    value sample_env sample_url None w_cached = (Ret (body, 200%Z), w')
    /\ field "cached" body = Some (JBool true)
    /\ field "source" body = None.
Proof.
  exists (hit_body sample_steamid (1234 # 100)), w_cached.
  split; [vm_compute; reflexivity | split; reflexivity].
Qed.

Lemma field_computed_body e steamid detailed total_value item_details :
  field "steamid" (computed_body e steamid detailed total_value item_details)
  = Some (JStr steamid)
  /\ field "total" (computed_body e steamid detailed total_value item_details)
     = Some (JNum (round2 total_value))
  /\ field "cached" (computed_body e steamid detailed total_value item_details)
     = Some (JBool false)
  /\ field "source" (computed_body e steamid detailed total_value item_details)
     = Some (JStr (source_name e)).
Proof. destruct detailed; repeat split. Qed.

(** C9, amended: a 200 of [value] carries the user key, a total and the
    cache-hit flag; when it was freshly computed the flag is false and the
    pricing source is there, CSFloat or Steam Market by the configuration;
    when it was served from the valuation cache the flag is true and there
    is no source. *)
Theorem value_result_fields e trade_url detailed_arg w body w' :
  value e trade_url detailed_arg w = (Ret (body, 200%Z), w') ->
  exists steamid total,
    extract_steamid trade_url = Some steamid
    /\ field "steamid" body = Some (JStr steamid)
    /\ field "total" body = Some (JNum total)
    /\ ((field "cached" body = Some (JBool false)
         /\ field "source" body = Some (JStr (source_name e))
         /\ (source_name e = "CSFloat" \/ source_name e = "Steam Market")
         /\ (sent w < sent w')%nat)
        \/ (field "cached" body = Some (JBool true)
            /\ field "source" body = None
            /\ w' = w)).
Proof.
  intros Hrun.
  destruct (value_200 e trade_url detailed_arg w body w' Hrun)
    as (steamid & Hid & _ & [(total & _ & _ & -> & ->) | [Hcomp _]]).
  - exists steamid, total. split; [exact Hid |]. split; [reflexivity |].
    split; [reflexivity |]. right. repeat split.
  - destruct (value_compute_200 e steamid _ w body w' Hcomp)
      as (inv & wf & l & total_value & item_details & w2 & Hfetch & Hloop & -> & ->).
    destruct (field_computed_body e steamid (detailed_of detailed_arg)
                total_value item_details) as (Hs & Ht & Hc & Hsrc).
    exists steamid, (round2 total_value).
    split; [exact Hid |]. split; [exact Hs |]. split; [exact Ht |].
    left. split; [exact Hc |]. split; [exact Hsrc |]. split.
    + unfold source_name. destruct (api_key_set e); [now left | now right].
    + destruct (safe_request_default_spec e (inventory_url steamid) None w)
        as (inv' & wf' & Hfetch' & _ & _ & Hsent & _).
      rewrite Hfetch in Hfetch'. injection Hfetch' as _ <-.
      destruct (value_loop_frame _ _ _ _ _ _ _ _ Hloop) as (_ & Hs2 & _).
      cbn. lia.
Qed.

Lemma first_valuation_run :
  first_valuation
  = (Ret (computed_body subcent_env sample_steamid false (123 # 1000) [], 200%Z),
     snd first_valuation).
Proof. vm_compute. reflexivity. Qed.

Lemma value_result_fields_witness :
  exists steamid total,
    extract_steamid sample_url = Some steamid
    /\ field "steamid" (computed_body subcent_env sample_steamid false (123 # 1000) [])
       = Some (JStr steamid)
    /\ field "total" (computed_body subcent_env sample_steamid false (123 # 1000) [])
       = Some (JNum total)
    /\ ((field "cached" (computed_body subcent_env sample_steamid false (123 # 1000) [])
         = Some (JBool false)
         /\ field "source" (computed_body subcent_env sample_steamid false (123 # 1000) [])
            = Some (JStr (source_name subcent_env))
         /\ (source_name subcent_env = "CSFloat" \/ source_name subcent_env = "Steam Market")
         /\ (sent w_start < sent (snd first_valuation))%nat)
        \/ (field "cached" (computed_body subcent_env sample_steamid false (123 # 1000) [])
            = Some (JBool true)
            /\ field "source" (computed_body subcent_env sample_steamid false (123 # 1000) [])
               = None
            /\ snd first_valuation = w_start)).
Proof.
  apply (value_result_fields subcent_env sample_url None w_start
           (computed_body subcent_env sample_steamid false (123 # 1000) [])
           (snd first_valuation)).
  vm_compute. reflexivity.
Defined.

(** C10: a freshly computed 200 reports the total rounded to two digits
    while the valuation cache receives the total as accumulated; for the
    next 300 seconds a request without detail is answered with the stored,
    unrounded, total.  There is an inventory for which the two responses
    differ in their total. *)
Theorem cached_total_is_unrounded :
  (forall e trade_url detailed_arg w body w',
      value e trade_url detailed_arg w = (Ret (body, 200%Z), w') ->
      field "cached" body = Some (JBool false) ->
      exists steamid total_value expires,
        extract_steamid trade_url = Some steamid
        /\ inventory_values w' !! steamid = Some (total_value, expires)
        /\ field "total" body = Some (JNum (round2 total_value))
        /\ forall later dt,
            detailed_of later = false -> (0 <= dt)%Q -> (dt < 300)%Q ->
            value e trade_url later (elapse dt w')
            = (Ret (hit_body steamid total_value, 200%Z), elapse dt w'))
  /\ exists e trade_url w body1 w1 body2 w2 total1 total2,
      value e trade_url None w = (Ret (body1, 200%Z), w1)
      /\ field "cached" body1 = Some (JBool false)
      /\ field "total" body1 = Some (JNum total1)
      /\ value e trade_url None w1 = (Ret (body2, 200%Z), w2)
      /\ field "cached" body2 = Some (JBool true)
      /\ field "total" body2 = Some (JNum total2)
      /\ ~ (total1 == total2)%Q.
Proof.
  split.
  - intros e trade_url detailed_arg w body w' Hrun Hflag.
    destruct (value_200 e trade_url detailed_arg w body w' Hrun)
      as (steamid & Hid & Hne & [(total & _ & _ & _ & ->) | [Hcomp _]]);
      [discriminate |].
    destruct (value_compute_200 e steamid _ w body w' Hcomp)
      as (inv & wf & l & total_value & item_details & w2 & _ & _ & -> & ->).
    exists steamid, total_value, (now w2 + value_ttl)%Q.
    split; [exact Hid |]. split; [apply lookup_insert_eq |].
    split; [apply field_computed_body |].
    intros later dt Hlater Hdt0 Hdt.
    apply value_hit with (expires := (now w2 + value_ttl)%Q); try assumption.
    + apply lookup_insert_eq.
    + cbn. unfold value_ttl. lra.
  - exists subcent_env, sample_url, w_start,
      (computed_body subcent_env sample_steamid false (123 # 1000) []),
      (snd first_valuation),
      (hit_body sample_steamid (123 # 1000)), (snd first_valuation),
      (12 # 100)%Q, (123 # 1000)%Q.
    split; [exact first_valuation_run |].
    split; [reflexivity |]. split; [reflexivity |].
    split; [vm_compute; reflexivity |].
    split; [reflexivity |]. split; [reflexivity |].
    unfold Qeq. simpl. lia.
Qed.

Lemma cached_total_is_unrounded_witness :
  exists steamid total_value expires,
    extract_steamid sample_url = Some steamid
    /\ inventory_values (snd first_valuation) !! steamid = Some (total_value, expires)
    /\ field "total" (computed_body subcent_env sample_steamid false (123 # 1000) [])
       = Some (JNum (round2 total_value))
    /\ forall later dt,
        detailed_of later = false -> (0 <= dt)%Q -> (dt < 300)%Q ->
        value subcent_env sample_url later (elapse dt (snd first_valuation))
        = (Ret (hit_body steamid total_value, 200%Z), elapse dt (snd first_valuation)).
Proof.
  apply (proj1 cached_total_is_unrounded subcent_env sample_url None w_start
           (computed_body subcent_env sample_steamid false (123 # 1000) [])
           (snd first_valuation)).
  - vm_compute. reflexivity.
  - reflexivity.
Defined.

(** ** Prices that are not available *)











(** [value_items] as one expression *)
Lemma value_items_unfold e steamid detailed inv wf :
  value_items e steamid detailed inv wf
  = match (if truthy inv then py_in "descriptions" inv else inr false) with
    | inl ex => (Raise ex, wf)
    | inr false => (Ret (error_body "Failed to fetch inventory", 502%Z), wf)
    | inr true =>
        match dict_get inv "descriptions" (JArr []) with
        | inl ex => (Raise ex, wf)
        | inr items =>
            if truthy items then
              match py_iter items with
              | inl ex => (Raise ex, wf)
              | inr l =>
                  match value_loop e detailed l 0%Q [] wf with
                  | (Ret (total_value, item_details), w2) =>
                      (Ret (computed_body e steamid detailed total_value item_details,
                            200%Z),
                       recorded steamid total_value w2)
                  | (Raise ex, w2) => (Raise ex, w2)
                  end
              end
            else (Ret (error_body "No items found", 404%Z), wf)
        end
    end.
Proof.
  unfold value_items, bind.
  destruct (truthy inv).
  - rewrite lift_run. destruct (py_in "descriptions" inv) as [ex | [|]];
      cbn [negb]; try reflexivity.
    rewrite lift_run. destruct (dict_get inv "descriptions" (JArr [])) as [ex | items];
      [reflexivity |].
    destruct (truthy items); cbn [negb]; [| reflexivity].
    rewrite lift_run. destruct (py_iter items) as [ex | l]; [reflexivity |].
    now destruct (value_loop e detailed l 0%Q [] wf) as [[[t ds] | ex] w2].
  - reflexivity.
Qed.

(** one turn of the loop of [value] *)
Lemma value_loop_cons e detailed item rest total_value item_details w :
  value_loop e detailed (item :: rest) total_value item_details w
  = match dict_get item "market_hash_name" JNull with
    | inl ex => (Raise ex, w)
    | inr market_hash =>
        if truthy market_hash then
          match market_hash with
          | JStr name =>
              match get_item_price e name w with
              | (Ret price, w1) =>
                  value_loop e detailed rest (total_value + price)%Q
                    (if detailed then item_details ++ [(name, round2 price)]
                     else item_details) w1
              | (Raise ex, w1) => (Raise ex, w1)
              end
          | _ => (Raise TypeError, w)
          end
        else value_loop e detailed rest total_value item_details w
    end.
Proof.
  cbn [value_loop]. unfold bind at 1. rewrite lift_run.
  destruct (dict_get item "market_hash_name" JNull) as [ex | market_hash];
    [reflexivity |].
  destruct (truthy market_hash); [| reflexivity].
  destruct market_hash; reflexivity.
Qed.

Lemma market_names_cons item rest :
  market_names (item :: rest)
  = match dict_get item "market_hash_name" JNull with
    | inr (JStr name) => if String.eqb name EmptyString then [] else [name]
    | _ => []
    end ++ market_names rest.
Proof. reflexivity. Qed.


(** the loop of [value] over entries of the right shape is the
    resolution of their market names, one call of [get_item_price] after
    the other, with the prices added to the total in that order and, for
    a detailed run, appended rounded to the item list *)
Lemma value_loop_resolve e detailed items :
  forallb well_shaped items = true ->
  forall total_value item_details w,
    value_loop e detailed items total_value item_details w
    = match resolve_all e (market_names items) w with
      | (Ret prices, w') =>
          (Ret (accumulate total_value prices,
                if detailed then item_details ++ map rounded prices else item_details),
           w')
      | (Raise ex, w') => (Raise ex, w')
      end.
Proof.
  induction items as [| item rest IH]; intros Hshape total_value item_details w.
  - cbn. destruct detailed; [now rewrite app_nil_r | reflexivity].
  - cbn [forallb] in Hshape. apply andb_true_iff in Hshape. destruct Hshape as [Hitem Hrest].
    rewrite value_loop_cons, market_names_cons. unfold well_shaped in Hitem.
    destruct (dict_get item "market_hash_name" JNull) as [ex | market_hash];
      [discriminate |].
    destruct (truthy market_hash) eqn:Htruthy.
    + destruct market_hash as [| b | q | name | l | kv];
        cbn in Htruthy, Hitem; try congruence;
        try (rewrite Htruthy in Hitem; discriminate Hitem).
      apply negb_true_iff in Htruthy. rewrite Htruthy.
      cbn [app resolve_all]. unfold bind at 1.
      destruct (get_item_price e name w) as [[price | ex] w1]; [| reflexivity].
      rewrite (IH Hrest). unfold bind.
      destruct (resolve_all e (market_names rest) w1) as [[prices | ex] w2];
        [| reflexivity].
      cbn [ret accumulate fold_left map snd]. unfold rounded at 2. cbn [fst snd].
      destruct detailed; [now rewrite <- app_assoc | reflexivity].
    + replace (match market_hash with
               | JStr name => if String.eqb name EmptyString then [] else [name]
               | _ => []
               end) with (@nil string).
      * cbn [app]. apply (IH Hrest).
      * destruct market_hash as [| b | q | name | l | kv]; try reflexivity.
        cbn in Htruthy. apply negb_false_iff in Htruthy. now rewrite Htruthy.
Qed.

(** the resolutions leave the valuation cache alone and only add to the
    requests and to the trace *)
Lemma resolve_all_frame e names :
  forall w r w', resolve_all e names w = (r, w') -> run_frame w w'.
Proof.
  induction names as [| name rest IH]; intros w r w' Hrun.
  - cbn in Hrun. injection Hrun as _ <-. apply run_frame_refl.
  - cbn [resolve_all] in Hrun. unfold bind at 1 in Hrun.
    destruct (get_item_price e name w) as [[price | ex] w1] eqn:Hprice.
    + apply get_item_price_frame in Hprice. unfold bind in Hrun.
      destruct (resolve_all e rest w1) as [[prices | ex] w2] eqn:Hrest;
        injection Hrun as _ <-;
        (eapply run_frame_trans; [exact Hprice | exact (IH _ _ _ Hrest)]).
    + injection Hrun as _ <-. exact (get_item_price_frame _ _ _ _ _ Hprice).
Qed.

(** a valuation over an inventory whose entries have the right shape:
    the named entries are priced in order, the total is what the prices
    add up to, it is recorded as it is and reported rounded *)
Lemma value_items_resolve e steamid detailed fields l wf :
  assoc_last "descriptions" fields = Some (JArr l) ->
  l <> [] ->
  forallb well_shaped l = true ->
  value_items e steamid detailed (JObj fields) wf
  = match resolve_all e (market_names l) wf with
    | (Ret prices, w2) =>
        (Ret (computed_body e steamid detailed (accumulate 0 prices) (map rounded prices),
              200%Z),
         recorded steamid (accumulate 0 prices) w2)
    | (Raise ex, w2) => (Raise ex, w2)
    end.
Proof.
  intros Hdesc Hne Hshape. rewrite value_items_unfold.
  assert (Hfields : truthy (JObj fields) = true).
  { destruct fields; [discriminate | reflexivity]. }
  rewrite Hfields. cbn [py_in dict_get]. rewrite Hdesc.
  assert (Hl : truthy (JArr l) = true) by (destruct l; [now destruct Hne | reflexivity]).
  rewrite Hl. cbn [py_iter]. rewrite (value_loop_resolve e detailed l Hshape).
  destruct (resolve_all e (market_names l) wf) as [[prices | ex] w2]; [| reflexivity].
  destruct detailed; reflexivity.
Qed.

(** ** Computations that do not look at the valuation cache *)

Create HintDb blind.

Lemma blind_ret {A} (a : A) : blind (ret a).
Proof. intros v w. reflexivity. Qed.

Lemma blind_raise {A} (ex : exn) : blind (@raise A ex).
Proof. intros v w. reflexivity. Qed.

Lemma blind_lift {A} (r : exn + A) : blind (lift r).
Proof. destruct r; [apply blind_raise | apply blind_ret]. Qed.

Lemma blind_bind {A B} (c : M A) (k : A -> M B) :
  blind c -> (forall a, blind (k a)) -> blind (bind c k).
Proof.
  intros Hc Hk v w. unfold bind. rewrite Hc.
  destruct (c w) as [[a | ex] w1]; cbn [fst snd]; [apply Hk | reflexivity].
Qed.

Lemma blind_requests_get e url headers : blind (requests_get e url headers).
Proof. intros v w. reflexivity. Qed.

Lemma blind_time_sleep d : blind (time_sleep d).
Proof. intros v w. unfold time_sleep. now destruct (Qle_bool 0 d). Qed.

Lemma blind_random_uniform e a b : blind (random_uniform e a b).
Proof. intros v w. reflexivity. Qed.

Lemma blind_get_item_cache market_hash : blind (get_item_cache market_hash).
Proof. intros v w. reflexivity. Qed.

Lemma blind_set_item_cache market_hash price ttl :
  blind (set_item_cache market_hash price ttl).
Proof. intros v w. reflexivity. Qed.

#[local] Hint Resolve blind_ret blind_raise blind_lift blind_requests_get
  blind_time_sleep blind_random_uniform blind_get_item_cache blind_set_item_cache
  : blind.

Lemma blind_safe_request_loop e url headers backoff remaining :
  forall attempt, blind (safe_request_loop e url headers backoff remaining attempt).
Proof.
  induction remaining as [| k IH]; intros attempt; cbn [safe_request_loop].
  - apply blind_ret.
  - apply blind_bind; [apply blind_requests_get |].
    intros [status_code body | | ex].
    + destruct (status_code =? 200)%Z.
      * destruct body; [apply blind_ret |].
        apply blind_bind; auto with blind.
      * destruct (status_code =? 429)%Z; [| apply blind_ret].
        apply blind_bind; auto with blind.
    + apply blind_bind; auto with blind.
    + apply blind_raise.
Qed.

Lemma blind_safe_request e url headers retries backoff :
  blind (safe_request e url headers retries backoff).
Proof. apply blind_safe_request_loop. Qed.

Lemma blind_get_item_price e market_hash : blind (get_item_price e market_hash).
Proof.
  unfold get_item_price. apply blind_bind; [apply blind_get_item_cache |].
  intros [price |]; [apply blind_ret |].
  apply blind_bind.
  - destruct (api_key_set e); unfold get_csfloat_price, get_steam_market_price;
      (apply blind_bind; [apply blind_safe_request | intros data; apply blind_lift]).
  - intros price. apply blind_bind; [apply blind_set_item_cache |].
    intros _. apply blind_bind; [apply blind_random_uniform |].
    intros j. apply blind_bind; [apply blind_time_sleep |].
    intros _. apply blind_ret.
Qed.

Lemma blind_value_loop e detailed items :
  forall total_value item_details,
    blind (value_loop e detailed items total_value item_details).
Proof.
  induction items as [| item rest IH]; intros total_value item_details;
    cbn [value_loop].
  - apply blind_ret.
  - apply blind_bind; [apply blind_lift |].
    intros market_hash. destruct (truthy market_hash); [| apply IH].
    destruct market_hash; try apply blind_raise.
    apply blind_bind; [apply blind_get_item_price |].
    intros price. apply IH.
Qed.

Lemma oblivious_blind {A} (c : M A) : blind c -> oblivious c.
Proof.
  intros Hc v w. rewrite Hc. cbn [fst snd]. split; reflexivity.
Qed.

Lemma oblivious_bind {A B} (c : M A) (k : A -> M B) :
  blind c -> (forall a, oblivious (k a)) -> oblivious (bind c k).
Proof.
  intros Hc Hk v w. unfold bind. rewrite Hc.
  destruct (c w) as [[a | ex] w1]; cbn [fst snd]; [apply Hk | split; reflexivity].
Qed.

Lemma oblivious_value_compute e steamid detailed :
  oblivious (value_compute e steamid detailed).
Proof.
  unfold value_compute, value_items.
  apply oblivious_bind; [apply blind_safe_request |]. intros inv.
  apply oblivious_bind.
  { destruct (truthy inv); [apply blind_lift | apply blind_ret]. }
  intros has. destruct (negb has); [apply oblivious_blind, blind_ret |].
  apply oblivious_bind; [apply blind_lift |]. intros items.
  destruct (negb (truthy items)); [apply oblivious_blind, blind_ret |].
  apply oblivious_bind; [apply blind_lift |]. intros l.
  apply oblivious_bind; [apply blind_value_loop |]. intros [total_value item_details].
  intros v w. split; reflexivity.
Qed.

(** C6: with detail asked for, a fresh total in the valuation cache is not
    looked at: [value] runs the full computation, which opens with the
    fetch of the inventory, and what it answers, what it requests and
    sleeps, and the price cache it leaves are those of the same request on
    a store that holds no total for the user.  On an inventory whose
    entries have the right shape the computation is the resolution of
    every named item, in order, by [get_item_price]: the answer carries
    the total of the prices so resolved and the list of them, and that
    total replaces the cached one. *)
Theorem detailed_bypasses_valuation_cache e trade_url detailed_arg w steamid total expires :
  extract_steamid trade_url = Some steamid ->
  steamid <> EmptyString ->
  detailed_of detailed_arg = true ->
  inventory_values w !! steamid = Some (total, expires) ->
  (now w < expires)%Q ->
  let cold := with_values (delete steamid (inventory_values w)) w in
  let run := value e trade_url detailed_arg w in
  let cold_run := value e trade_url detailed_arg cold in
  select_fresh cold (inventory_values cold) steamid = None
  /\ run = value_compute e steamid true w
  /\ fst run = fst cold_run
  /\ trace (snd run) = trace (snd cold_run)
  /\ sent (snd run) = sent (snd cold_run)
  /\ item_prices (snd run) = item_prices (snd cold_run)
  /\ (sent w < sent (snd run))%nat
  /\ (exists evs, trace (snd run) = trace w ++ Get (inventory_url steamid) None :: evs)
  /\ (forall body status, fst run = Ret (body, status) ->
                          field "cached" body <> Some (JBool true))
  /\ forall fields l wf,
      safe_request e (inventory_url steamid) None default_retries default_backoff w
      = (Ret (JObj fields), wf) ->
      assoc_last "descriptions" fields = Some (JArr l) ->
      l <> [] ->
      forallb well_shaped l = true ->
      run = match resolve_all e (market_names l) wf with
            | (Ret prices, w2) =>
                (Ret (computed_body e steamid true (accumulate 0 prices)
                        (map rounded prices), 200%Z),
                 recorded steamid (accumulate 0 prices) w2)
            | (Raise ex, w2) => (Raise ex, w2)
            end.
Proof.
  intros Hid Hne Hflag Hrow Hlt cold run cold_run.
  assert (Hcold : select_fresh cold (inventory_values cold) steamid = None).
  { unfold select_fresh, cold. cbn. now rewrite lookup_delete_eq. }
  assert (Hrun : run = value_compute e steamid true w).
  { unfold run, value. rewrite Hid.
    apply String.eqb_neq in Hne. rewrite Hne.
    unfold bind, get_cached_value.
    rewrite (select_fresh_hit w _ steamid total expires Hrow Hlt), Hflag.
    reflexivity. }
  assert (Hcold_run : cold_run = value_compute e steamid true cold).
  { unfold cold_run, value. rewrite Hid.
    apply String.eqb_neq in Hne. rewrite Hne.
    unfold bind, get_cached_value. rewrite Hcold, Hflag. reflexivity. }
  destruct (oblivious_value_compute e steamid true
              (delete steamid (inventory_values w)) w) as [Hfst Hsnd].
  fold cold in Hfst, Hsnd. rewrite <- Hrun, <- Hcold_run in Hfst, Hsnd.
  split; [exact Hcold |]. split; [exact Hrun |]. split; [now symmetry |].
  split; [exact (f_equal trace (eq_sym Hsnd)) |].
  split; [exact (f_equal sent (eq_sym Hsnd)) |].
  split; [exact (f_equal item_prices (eq_sym Hsnd)) |].
  rewrite Hrun.
  split; [apply value_compute_opens |]. split; [apply value_compute_opens |].
  split.
  - intros body status Heq.
    unfold value_compute, bind in Heq.
    destruct (safe_request e (inventory_url steamid) None default_retries default_backoff w)
      as [[inv | ex] wf]; [| discriminate].
    destruct (value_items e steamid true inv wf) as [r w'] eqn:Hitems.
    cbn [fst] in Heq. subst r.
    destruct (value_items_cases e steamid true inv wf _ _ Hitems)
      as [[_ [(ex & Hex) | (msg & st & Hmsg & _)]] | (l & Hloop)].
    + discriminate.
    + injection Hmsg as -> _. discriminate.
    + destruct (value_loop e true l 0%Q [] wf) as [[[t ds] | ex] w2];
        destruct Hloop as [Hr _]; [| discriminate].
      injection Hr as -> _.
      destruct (field_computed_body e steamid true t ds) as (_ & _ & Hc & _).
      rewrite Hc. discriminate.
  - intros fields l wf Hfetch Hdesc Hl Hshape.
    unfold value_compute, bind. rewrite Hfetch.
    exact (value_items_resolve e steamid true fields l wf Hdesc Hl Hshape).
Qed.

Lemma detailed_bypasses_valuation_cache_witness :
  let e := env_of None [Response 200 (Some subcent_inventory);
                        Response 200 (Some overview_payload)] in
  let cold := with_values (delete sample_steamid (inventory_values w_cached)) w_cached in
  let run := value e sample_url (Some "True") w_cached in
  let cold_run := value e sample_url (Some "True") cold in
  let wf := issue (inventory_url sample_steamid) None w_cached in
  (select_fresh cold (inventory_values cold) sample_steamid = None
   /\ run = value_compute e sample_steamid true w_cached
   /\ fst run = fst cold_run
   /\ trace (snd run) = trace (snd cold_run)
   /\ sent (snd run) = sent (snd cold_run)
   /\ item_prices (snd run) = item_prices (snd cold_run)
   /\ (sent w_cached < sent (snd run))%nat
   /\ (exists evs,
         trace (snd run) = trace w_cached ++ Get (inventory_url sample_steamid) None :: evs)
   /\ (forall body status, fst run = Ret (body, status) ->
                           field "cached" body <> Some (JBool true)))
  /\ run = match resolve_all e ["Sticker | Example"] wf with
           | (Ret prices, w2) =>
               (Ret (computed_body e sample_steamid true (accumulate 0 prices)
                       (map rounded prices), 200%Z),
                recorded sample_steamid (accumulate 0 prices) w2)
           | (Raise ex, w2) => (Raise ex, w2)
           end.
Proof.
  intros e cold run cold_run wf.
  assert (Hlt : (now w_cached < now w_start + value_ttl)%Q)
    by (unfold Qlt; simpl; lia).
  assert (Hne : sample_steamid <> EmptyString) by discriminate.
  assert (Hrow : inventory_values w_cached !! sample_steamid
                 = Some ((1234 # 100)%Q, (now w_start + value_ttl)%Q))
    by (vm_compute; reflexivity).
  pose proof (detailed_bypasses_valuation_cache e sample_url (Some "True") w_cached
                sample_steamid (1234 # 100) (now w_start + value_ttl)%Q
                eq_refl Hne eq_refl Hrow Hlt)
    as (H1 & H2 & H3 & H4 & H5 & H6 & H7 & H8 & H9 & H10).
  split.
  - exact (conj H1 (conj H2 (conj H3 (conj H4 (conj H5 (conj H6 (conj H7 (conj H8 H9)))))))).
  - refine (H10 [("descriptions", JArr [JObj [("market_hash_name", JStr "Sticker | Example")]])]
                [JObj [("market_hash_name", JStr "Sticker | Example")]] wf
                eq_refl eq_refl _ eq_refl).
    discriminate.
Defined.

(** the detailed run of the witness has fetched the inventory and the
    price of its item, and has replaced the cached total by the price *)
Example detailed_run_resolves_the_item :
  let e := env_of None [Response 200 (Some subcent_inventory);
                        Response 200 (Some overview_payload)] in
  let run := value e sample_url (Some "True") w_cached in
  sent (snd run) = 2%nat
  /\ option_map fst (item_prices (snd run) !! "Sticker | Example") = Some (1230 # 100)%Q
  /\ option_map fst (inventory_values (snd run) !! sample_steamid) = Some (0 + (1230 # 100))%Q
  /\ field "total" (match fst run with Ret (body, _) => body | Raise _ => JNull end)
     = Some (JNum (1230 # 100)).
Proof. vm_compute. repeat split. Qed.

(** ** Characters that the string operations do not bring in *)

Lemma has_char_append c s1 s2 :
  PyStr.has_char c (s1 ++ s2) = PyStr.has_char c s1 || PyStr.has_char c s2.
Proof.
  induction s1 as [| d s1 IH]; [reflexivity |].
  change (String d s1 ++ s2)%string with (String d (s1 ++ s2)%string).
  cbn [PyStr.has_char]. rewrite IH. now rewrite orb_assoc.
Qed.

Lemma has_char_lstrip c s :
  PyStr.has_char c s = false -> PyStr.has_char c (PyStr.lstrip s) = false.
Proof.
  induction s as [| d s IH]; [reflexivity |].
  intros Hs. cbn [PyStr.lstrip]. destruct (PyStr.is_space d); [| exact Hs].
  apply IH. cbn in Hs. now apply orb_false_iff in Hs.
Qed.

Lemma has_char_rstrip c s :
  PyStr.has_char c s = false -> PyStr.has_char c (PyStr.rstrip s) = false.
Proof.
  induction s as [| d s IH]; [reflexivity |].
  intros Hs. cbn in Hs. apply orb_false_iff in Hs. destruct Hs as [Hd Hs].
  specialize (IH Hs). cbn [PyStr.rstrip].
  destruct (PyStr.rstrip s) as [| d' r].
  - destruct (PyStr.is_space d); [reflexivity |]. cbn. now rewrite Hd.
  - cbn. cbn in IH. now rewrite Hd, IH.
Qed.

Lemma has_char_split_from c sep s :
  forall skip cur,
    PyStr.has_char c s = false -> PyStr.has_char c cur = false ->
    existsb (PyStr.has_char c) (PyStr.split_from sep s skip cur) = false.
Proof.
  induction s as [| d s IH]; intros skip cur Hs Hcur.
  - cbn. now rewrite Hcur.
  - cbn in Hs. apply orb_false_iff in Hs. destruct Hs as [Hd Hs].
    cbn [PyStr.split_from]. destruct skip as [| k]; [| now apply IH].
    destruct (String.prefix sep (String d s)).
    + cbn [existsb]. rewrite Hcur. cbn [orb]. now apply IH.
    + apply IH; [exact Hs |]. rewrite has_char_append. cbn. now rewrite Hcur, Hd.
Qed.

Lemma has_char_join_empty c parts :
  existsb (PyStr.has_char c) parts = false ->
  PyStr.has_char c (PyStr.join EmptyString parts) = false.
Proof.
  induction parts as [| p rest IH]; [reflexivity |].
  intros Hparts. cbn in Hparts. apply orb_false_iff in Hparts.
  destruct Hparts as [Hp Hrest]. specialize (IH Hrest).
  cbn [PyStr.join]. destruct rest as [| p' rest']; [exact Hp |].
  rewrite has_char_append. rewrite Hp. cbn [orb]. exact IH.
Qed.

Lemma has_char_replace_empty c old s :
  PyStr.has_char c s = false ->
  PyStr.has_char c (PyStr.replace old EmptyString s) = false.
Proof.
  intros Hs. unfold PyStr.replace, PyStr.split.
  apply has_char_join_empty. now apply has_char_split_from.
Qed.

Lemma has_char_strip c s :
  PyStr.has_char c s = false -> PyStr.has_char c (PyStr.strip s) = false.
Proof.
  intros Hs. unfold PyStr.strip. now apply has_char_rstrip, has_char_lstrip.
Qed.

(** ** Signs *)















(** ** Sample valuations *)

(** of two items the second has no market name: it is skipped, the total
    is the price of the first, and the detailed list has one entry *)
Example value_skips_item_without_market_name :
  let inventory :=
    JObj [("descriptions",
           JArr [JObj [("market_hash_name", JStr "AK-47 | Redline (Field-Tested)")];
                 JObj [("name", JStr "???")]])] in
  let e := env_of None [Response 200 (Some inventory); Response 200 (Some overview_payload)] in
  fst (value e sample_url (Some "true") w_start)
  = Ret (JObj [("steamid", JStr sample_steamid);
               ("total", JNum (1230 # 100));
               ("cached", JBool false);
               ("source", JStr "Steam Market");
               ("items", JArr [JObj [("name", JStr "AK-47 | Redline (Field-Tested)");
                                     ("price_usd", JNum (1230 # 100))]])],
         200%Z).
Proof. vm_compute. reflexivity. Qed.

(** the two failures of the inventory fetch are told apart *)
Example value_inventory_failures :
  fst (value (env_of None [Response 500 None]) sample_url None w_start)
  = Ret (error_body "Failed to fetch inventory", 502%Z)
  /\ fst (value (env_of None [Response 200 (Some (JObj [("descriptions", JArr [])]))])
            sample_url None w_start)
     = Ret (error_body "No items found", 404%Z)
  /\ fst (value sample_env (Some "https://example.org/") None w_start)
     = Ret (error_body "Invalid URL", 400%Z).
Proof. vm_compute. repeat split. Qed.

(** a first listing that is not an object is not a price that fails to
    parse: [data[0].get] raises, outside the [try] *)
Example listing_of_wrong_shape_raises :
  fst (get_item_price (env_of (Some "secret") [Response 200 (Some (JArr [JNum 5]))])
         "M4A4 | Howl" w_start)
  = Raise AttributeError.
Proof. reflexivity. Qed.

(** * Further properties: the code around the claims *)

(** ** The two cache tables *)

Lemma fresh_elapse_iff w value ttl dt :
  fresh (elapse dt w) (value, (now w + ttl)%Q) = true <-> (dt < ttl)%Q.
Proof.
  unfold fresh. cbn. rewrite negb_true_iff. split.
  - intros Hle. apply Qnot_le_lt. intros Hge.
    assert (Hb : Qle_bool (now w + ttl) (now w + dt) = true).
    { apply Qle_bool_iff. lra. }
    congruence.
  - intros Hlt. destruct (Qle_bool (now w + ttl) (now w + dt)) eqn:Hb; [| reflexivity].
    apply Qle_bool_iff in Hb. lra.
Qed.

(** X1: a value written to either cache with a time to live is read back
    as long as less than that time has passed, and is absent from then on,
    the instant of expiry included; reading changes nothing. *)
Theorem cache_round_trip key value ttl w dt :
  let wi := elapse dt (snd (set_item_cache key value ttl w)) in
  let wv := elapse dt (snd (set_cached_value key value ttl w)) in
  ((dt < ttl)%Q ->
     get_item_cache key wi = (Ret (Some value), wi)
     /\ get_cached_value key wv = (Ret (Some value), wv))
  /\ ((ttl <= dt)%Q ->
       get_item_cache key wi = (Ret None, wi)
       /\ get_cached_value key wv = (Ret None, wv)).
Proof.
  intros wi wv.
  assert (Hread :
    get_item_cache key wi
    = (Ret (if fresh (elapse dt w) (value, (now w + ttl)%Q) then Some value else None), wi)
    /\ get_cached_value key wv
       = (Ret (if fresh (elapse dt w) (value, (now w + ttl)%Q) then Some value else None),
          wv)).
  { unfold get_item_cache, get_cached_value, select_fresh, wi, wv. cbn.
    rewrite !lookup_insert_eq. split; reflexivity. }
  destruct (fresh (elapse dt w) (value, (now w + ttl)%Q)) eqn:Hfresh.
  - apply fresh_elapse_iff in Hfresh. split; [intros _; exact Hread |].
    intros Hge. exfalso. lra.
  - split; [| intros _; exact Hread].
    intros Hlt. apply (fresh_elapse_iff w value ttl dt) in Hlt. congruence.
Qed.

Lemma cache_round_trip_witness :
  (get_item_cache "AWP | Asiimov"
     (elapse 60 (snd (set_item_cache "AWP | Asiimov" (4550 # 100) item_ttl w_start)))
   = (Ret (Some (4550 # 100)%Q),
      elapse 60 (snd (set_item_cache "AWP | Asiimov" (4550 # 100) item_ttl w_start)))
   /\ get_cached_value "AWP | Asiimov"
        (elapse 60 (snd (set_cached_value "AWP | Asiimov" (4550 # 100) item_ttl w_start)))
      = (Ret (Some (4550 # 100)%Q),
         elapse 60 (snd (set_cached_value "AWP | Asiimov" (4550 # 100) item_ttl w_start))))
  /\ (get_item_cache "AWP | Asiimov"
        (elapse 3600 (snd (set_item_cache "AWP | Asiimov" (4550 # 100) item_ttl w_start)))
      = (Ret None,
         elapse 3600 (snd (set_item_cache "AWP | Asiimov" (4550 # 100) item_ttl w_start)))
      /\ get_cached_value "AWP | Asiimov"
           (elapse 3600
              (snd (set_cached_value "AWP | Asiimov" (4550 # 100) item_ttl w_start)))
         = (Ret None,
            elapse 3600
              (snd (set_cached_value "AWP | Asiimov" (4550 # 100) item_ttl w_start)))).
Proof.
  split.
  - apply (proj1 (cache_round_trip "AWP | Asiimov" (4550 # 100) item_ttl w_start 60)).
    unfold Qlt. simpl. lia.
  - apply (proj2 (cache_round_trip "AWP | Asiimov" (4550 # 100) item_ttl w_start 3600)).
    unfold Qle. simpl. lia.
Defined.

(** X2: a write to one cache replaces what the key held (the last writer
    wins), leaves every other key of that table as it was, and leaves the
    other table alone. *)
Theorem cache_write_is_local key other value ttl w :
  key <> other ->
  let wi := snd (set_item_cache key value ttl w) in
  let wv := snd (set_cached_value key value ttl w) in
  item_prices wi !! other = item_prices w !! other
  /\ inventory_values wi = inventory_values w
  /\ inventory_values wv !! other = inventory_values w !! other
  /\ item_prices wv = item_prices w
  /\ (forall before ttl0,
        item_prices (snd (set_item_cache key value ttl
                            (snd (set_item_cache key before ttl0 w))))
        = item_prices wi
        /\ inventory_values (snd (set_cached_value key value ttl
                                    (snd (set_cached_value key before ttl0 w))))
           = inventory_values wv).
Proof.
  intros Hne wi wv. unfold wi, wv. cbn.
  rewrite !lookup_insert_ne by exact Hne.
  repeat split; try reflexivity; apply insert_insert_eq.
Qed.

Lemma cache_write_is_local_witness :
  let wi := snd (set_item_cache "AWP | Asiimov" (4550 # 100) item_ttl w_cached) in
  let wv := snd (set_cached_value "AWP | Asiimov" (4550 # 100) item_ttl w_cached) in
  item_prices wi !! sample_steamid = item_prices w_cached !! sample_steamid
  /\ inventory_values wi = inventory_values w_cached
  /\ inventory_values wv !! sample_steamid = inventory_values w_cached !! sample_steamid
  /\ item_prices wv = item_prices w_cached
  /\ (forall before ttl0,
        item_prices (snd (set_item_cache "AWP | Asiimov" (4550 # 100) item_ttl
                            (snd (set_item_cache "AWP | Asiimov" before ttl0 w_cached))))
        = item_prices wi
        /\ inventory_values
             (snd (set_cached_value "AWP | Asiimov" (4550 # 100) item_ttl
                     (snd (set_cached_value "AWP | Asiimov" before ttl0 w_cached))))
           = inventory_values wv).
Proof.
  apply (cache_write_is_local "AWP | Asiimov" sample_steamid (4550 # 100) item_ttl w_cached).
  discriminate.
Defined.

(** ** [extract_steamid] *)

Lemma split_from_nonempty sep s :
  forall skip cur, exists piece rest, PyStr.split_from sep s skip cur = piece :: rest.
Proof.
  induction s as [| c s IH]; intros skip cur; cbn [PyStr.split_from].
  - now exists cur, [].
  - destruct skip as [| k]; [| apply IH].
    destruct (String.prefix sep (String c s)); [| apply IH].
    now eexists _, _.
Qed.

Lemma prefix_of_empty sep : sep <> EmptyString -> String.prefix sep EmptyString = false.
Proof. destruct sep; [congruence | reflexivity]. Qed.

Lemma prefix_empty s : String.prefix EmptyString s = true.
Proof. now destruct s. Qed.

Lemma prefix_cons a b s1 s2 :
  String.prefix (String a s1) (String b s2) = Ascii.eqb a b && String.prefix s1 s2.
Proof.
  cbn [String.prefix]. destruct (ascii_dec a b) as [-> | Hne].
  - now rewrite Ascii.eqb_refl.
  - apply Ascii.eqb_neq in Hne. now rewrite Hne.
Qed.

(** where the separator occurs there are at least two pieces *)
Lemma split_from_two_pieces sep s :
  sep <> EmptyString ->
  PyStr.contains sep s = true ->
  forall cur, exists first second rest,
    PyStr.split_from sep s 0 cur = first :: second :: rest.
Proof.
  intros Hsep. induction s as [| c s IH]; intros Hin cur.
  - change (String.prefix sep EmptyString = true) in Hin.
    rewrite (prefix_of_empty sep Hsep) in Hin. discriminate.
  - cbn [PyStr.contains] in Hin. cbn [PyStr.split_from].
    destruct (String.prefix sep (String c s)).
    + destruct (split_from_nonempty sep s (String.length sep - 1) EmptyString)
        as (piece & rest & ->).
      now eexists _, _, _.
    + cbn [orb] in Hin. apply IH. exact Hin.
Qed.

(** the first piece of a split at slashes has no slash *)
Lemma split_slash_head s :
  forall cur,
    PyStr.has_char "/" cur = false ->
    exists piece rest,
      PyStr.split_from "/" s 0 cur = piece :: rest
      /\ PyStr.has_char "/" piece = false.
Proof.
  induction s as [| c s IH]; intros cur Hcur.
  - exists cur, []. now split.
  - cbn [PyStr.split_from].
    destruct (String.prefix "/" (String c s)) eqn:Hpre.
    + eexists _, _. split; [reflexivity | exact Hcur].
    + apply IH. rewrite has_char_append. rewrite Hcur. cbn [PyStr.has_char orb].
      rewrite prefix_cons, prefix_empty, andb_true_r in Hpre. now rewrite Hpre.
Qed.

(** X3: on a string [extract_steamid] gives nothing exactly when the
    string holds neither [/profiles/] nor [/id/]; what it gives otherwise
    holds no slash (and may be empty). *)
Theorem extract_steamid_total u :
  (extract_steamid (Some u) = None
   <-> PyStr.contains "/profiles/" u = false /\ PyStr.contains "/id/" u = false)
  /\ forall steamid,
      extract_steamid (Some u) = Some steamid -> PyStr.has_char "/" steamid = false.
Proof.
  assert (Hafter : forall marker,
            marker <> EmptyString ->
            PyStr.contains marker u = true ->
            exists steamid,
              match nth_error (PyStr.split marker u) 1 with
              | Some rest => nth_error (PyStr.split "/" rest) 0
              | None => None
              end = Some steamid
              /\ PyStr.has_char "/" steamid = false).
  { intros marker Hmarker Hin.
    destruct (split_from_two_pieces marker u Hmarker Hin EmptyString)
      as (first & second & rest & Hsplit).
    unfold PyStr.split at 1. rewrite Hsplit. cbn [nth_error].
    destruct (split_slash_head second EmptyString eq_refl) as (piece & rest' & Hs & Hno).
    unfold PyStr.split. rewrite Hs. cbn [nth_error]. now exists piece. }
  unfold extract_steamid.
  destruct (PyStr.contains "/profiles/" u) eqn:Hprofiles.
  - destruct (Hafter "/profiles/" ltac:(discriminate) Hprofiles) as (sid & -> & Hno).
    split.
    + split; [discriminate | intros [Hf _]; discriminate].
    + intros steamid Heq. now injection Heq as <-.
  - destruct (PyStr.contains "/id/" u) eqn:Hid.
    + destruct (Hafter "/id/" ltac:(discriminate) Hid) as (sid & -> & Hno).
      split.
      * split; [discriminate | intros [_ Hf]; discriminate].
      * intros steamid Heq. now injection Heq as <-.
    + split; [now split | discriminate].
Qed.

Lemma string_append_assoc (a b c : string) : ((a ++ b) ++ c = a ++ (b ++ c))%string.
Proof.
  induction a as [| x a IH]; [reflexivity |].
  change ((String x a ++ b) ++ c)%string with (String x ((a ++ b) ++ c))%string.
  now rewrite IH.
Qed.

Lemma prefix_append sep rest : String.prefix sep (sep ++ rest) = true.
Proof.
  induction sep as [| a sep IH]; [apply prefix_empty |].
  change (String a sep ++ rest)%string with (String a (sep ++ rest))%string.
  now rewrite prefix_cons, Ascii.eqb_refl, IH.
Qed.

Lemma string_append_empty (s : string) : (s ++ EmptyString)%string = s.
Proof.
  induction s as [| x s IH]; [reflexivity |].
  change (String x s ++ EmptyString)%string with (String x (s ++ EmptyString))%string.
  now rewrite IH.
Qed.

Lemma contains_prefix sep s : String.prefix sep s = true -> PyStr.contains sep s = true.
Proof.
  intros Hpre. destruct s as [| c s]; [exact Hpre |].
  cbn [PyStr.contains]. now rewrite Hpre.
Qed.

Lemma contains_append sep base rest : PyStr.contains sep (base ++ sep ++ rest) = true.
Proof.
  induction base as [| a base IH].
  - change (EmptyString ++ sep ++ rest)%string with (sep ++ rest)%string.
    apply contains_prefix. apply prefix_append.
  - change (String a base ++ sep ++ rest)%string
      with (String a (base ++ sep ++ rest))%string.
    cbn [PyStr.contains]. rewrite IH. apply orb_true_r.
Qed.

Lemma has_char_contains_slash_p s :
  PyStr.has_char "/" s = false -> PyStr.contains "/p" s = false.
Proof.
  induction s as [| c s IH]; [reflexivity |].
  cbn [PyStr.has_char]. intros Hs. apply orb_false_iff in Hs. destruct Hs as [Hc Hs].
  cbn [PyStr.contains]. rewrite (IH Hs), prefix_cons, Hc. reflexivity.
Qed.

(** a stretch in which [/profiles/] cannot begin goes to the current piece *)
Lemma split_profiles_pass base rest :
  PyStr.contains "/p" base = false ->
  rest = EmptyString \/ (exists r, rest = String "/" r) ->
  forall cur,
    PyStr.split_from "/profiles/" (base ++ rest) 0 cur
    = PyStr.split_from "/profiles/" rest 0 (cur ++ base).
Proof.
  intros Hbase Hrest. induction base as [| a base IH]; intros cur.
  - change (EmptyString ++ rest)%string with rest.
    now rewrite string_append_empty.
  - cbn [PyStr.contains] in Hbase. apply orb_false_iff in Hbase.
    destruct Hbase as [Hhere Hlater].
    change (String a base ++ rest)%string with (String a (base ++ rest))%string.
    cbn [PyStr.split_from].
    assert (Hno : String.prefix "/profiles/" (String a (base ++ rest)) = false).
    { rewrite prefix_cons. destruct (Ascii.eqb "/" a) eqn:Ha; [| reflexivity].
      cbn [andb]. destruct base as [| b base].
      - change (EmptyString ++ rest)%string with rest.
        destruct Hrest as [-> | (r & ->)]; [reflexivity |].
        now rewrite prefix_cons.
      - change (String b base ++ rest)%string with (String b (base ++ rest))%string.
        rewrite prefix_cons in Hhere. rewrite Ha in Hhere. cbn [andb] in Hhere.
        rewrite prefix_cons, prefix_empty, andb_true_r in Hhere.
        rewrite prefix_cons, Hhere. reflexivity. }
    rewrite Hno. rewrite (IH Hlater). f_equal.
    now rewrite string_append_assoc.
Qed.

(** the piece being read is the start of the first piece given back *)
Lemma split_from_head_extends sep s :
  forall cur, exists more rest,
    PyStr.split_from sep s 0 cur = (cur ++ more)%string :: rest
    /\ (more = EmptyString \/ exists c more' s', s = String c s' /\ more = String c more').
Proof.
  induction s as [| c s IH]; intros cur.
  - exists EmptyString, []. split; [| now left].
    cbn [PyStr.split_from]. now rewrite string_append_empty.
  - cbn [PyStr.split_from]. destruct (String.prefix sep (String c s)).
    + exists EmptyString. eexists. split; [| now left].
      now rewrite string_append_empty.
    + destruct (IH (cur ++ String c EmptyString)%string) as (more & rest & Heq & _).
      exists (String c more), rest. split.
      * rewrite Heq. f_equal. now rewrite string_append_assoc.
      * right. now exists c, more, s.
Qed.

(** splitting at slashes gives back first what stands before the first
    slash *)
Lemma split_slash_first steamid more :
  PyStr.has_char "/" steamid = false ->
  more = EmptyString \/ (exists r, more = String "/" r) ->
  forall cur, exists rest,
    PyStr.split_from "/" (steamid ++ more) 0 cur = (cur ++ steamid)%string :: rest.
Proof.
  intros Hsid Hmore. induction steamid as [| a steamid IH]; intros cur.
  - change (EmptyString ++ more)%string with more.
    rewrite string_append_empty.
    destruct Hmore as [-> | (r & ->)].
    + exists []. reflexivity.
    + cbn [PyStr.split_from]. rewrite prefix_cons, prefix_empty.
      rewrite Ascii.eqb_refl. cbn [andb]. now eexists.
  - cbn [PyStr.has_char] in Hsid. apply orb_false_iff in Hsid. destruct Hsid as [Ha Hsid].
    change (String a steamid ++ more)%string with (String a (steamid ++ more))%string.
    cbn [PyStr.split_from]. rewrite prefix_cons, Ha. cbn [andb].
    destruct (IH Hsid (cur ++ String a EmptyString)%string) as (rest & Heq).
    exists rest. rewrite Heq. f_equal. now rewrite string_append_assoc.
Qed.

(** X4: a profile URL gives its identifier back: whatever stands before
    [/profiles/], as long as no [/p] occurs in it, and whatever follows the
    identifier, as long as it is empty or opens with a slash, an identifier
    without a slash is what [extract_steamid] returns. *)
Theorem extract_steamid_profile_url base steamid tail :
  PyStr.contains "/p" base = false ->
  PyStr.has_char "/" steamid = false ->
  tail = EmptyString \/ (exists rest, tail = String "/" rest) ->
  extract_steamid (Some (base ++ "/profiles/" ++ steamid ++ tail)%string) = Some steamid.
Proof.
  intros Hbase Hsid Htail. unfold extract_steamid.
  rewrite contains_append.
  assert (Hsplit : exists more rest,
            PyStr.split "/profiles/" (base ++ "/profiles/" ++ steamid ++ tail)
            = base :: (steamid ++ more)%string :: rest
            /\ (more = EmptyString \/ exists r, more = String "/" r)).
  { unfold PyStr.split.
    rewrite split_profiles_pass; [| exact Hbase | right; now eexists].
    change (EmptyString ++ base)%string with base.
    change ("/profiles/" ++ steamid ++ tail)%string
      with (String "/" ("profiles/" ++ steamid ++ tail))%string.
    cbn [PyStr.split_from].
    change (String "/" ("profiles/" ++ steamid ++ tail))%string
      with ("/profiles/" ++ (steamid ++ tail))%string.
    rewrite prefix_append.
    change (String.length "/profiles/" - 1)%nat with 9%nat.
    change ("profiles/" ++ steamid ++ tail)%string
      with (String "p" (String "r" (String "o" (String "f" (String "i" (String "l"
             (String "e" (String "s" (String "/" (steamid ++ tail))))))))))%string.
    cbn [PyStr.split_from].
    rewrite split_profiles_pass;
      [| now apply has_char_contains_slash_p | exact Htail].
    change (EmptyString ++ steamid)%string with steamid.
    destruct (split_from_head_extends "/profiles/" tail steamid)
      as (more & rest & -> & Hmore).
    exists more, rest. split; [reflexivity |].
    destruct Hmore as [-> | (c & more' & s' & -> & ->)]; [now left |].
    destruct Htail as [Hnil | (r & Hr)]; [discriminate |].
    injection Hr as -> _. right. now eexists. }
  destruct Hsplit as (more & rest & -> & Hmore). cbn [nth_error].
  destruct (split_slash_first steamid more Hsid Hmore EmptyString) as (rest' & Heq).
  unfold PyStr.split. rewrite Heq. reflexivity.
Qed.

Lemma extract_steamid_profile_url_witness :
  extract_steamid
    (Some ("https://steamcommunity.com" ++ "/profiles/" ++ "76561198000000001"
           ++ "/inventory")%string)
  = Some "76561198000000001".
Proof.
  apply (extract_steamid_profile_url "https://steamcommunity.com" "76561198000000001"
           "/inventory").
  - reflexivity.
  - reflexivity.
  - right. now exists "inventory".
Defined.

Lemma extract_steamid_total_witness :
  PyStr.has_char "/" sample_steamid = false.
Proof.
  apply (proj2 (extract_steamid_total
                  "https://steamcommunity.com/profiles/76561198000000001/inventory")
           sample_steamid).
  reflexivity.
Defined.

(** ** [safe_request] beyond the two sample sequences *)

Lemma retryable_cases o :
  retryable o = true ->
  match o with
  | Response status_code body =>
      status_code = 429%Z \/ (status_code = 200%Z /\ body = None)
  | RequestException => True
  | Unreadable _ => False
  end.
Proof.
  destruct o as [status_code body | | ex]; [| trivial | discriminate]. cbn.
  destruct (Z.eqb_spec status_code 200) as [-> | _].
  - destruct body; [discriminate | now right].
  - intros Heq. left. now apply Z.eqb_eq.
Qed.

Lemma inject_nat_succ (n : nat) :
  (inject_Z (Z.of_nat (S n)) == inject_Z (Z.of_nat n) + 1)%Q.
Proof. rewrite Nat2Z.inj_succ. unfold Z.succ. now rewrite inject_Z_plus. Qed.

Lemma delay_as_product backoff attempt :
  (delay backoff attempt == backoff * (inject_Z (Z.of_nat attempt) + 1))%Q.
Proof. unfold delay. now rewrite inject_Z_plus. Qed.

(** the sleeps add up to an arithmetic series *)
Lemma backoff_total_closed backoff k :
  forall attempt,
    (2 * backoff_total backoff attempt k
     == backoff * inject_Z (Z.of_nat k)
        * (2 * inject_Z (Z.of_nat attempt) + inject_Z (Z.of_nat k) + 1))%Q.
Proof.
  induction k as [| k IH]; intros attempt.
  - cbn. ring.
  - cbn [backoff_total].
    rewrite Qmult_plus_distr_r, (IH (S attempt)), delay_as_product, !inject_nat_succ.
    ring.
Qed.

Lemma backoff_total_nonneg backoff k :
  (0 <= backoff)%Q -> forall attempt, (0 <= backoff_total backoff attempt k)%Q.
Proof.
  intros Hb. induction k as [| k IH]; intros attempt; cbn [backoff_total].
  - apply Qle_refl.
  - pose proof (IH (S attempt)) as Hrest.
    pose proof (proj1 (Qle_bool_iff _ _) (delay_nonneg backoff attempt Hb)) as Hd.
    lra.
Qed.

Lemma after_retries_facts backoff url headers k :
  forall attempt w,
    sent (after_retries backoff url headers attempt k w) = (sent w + k)%nat
    /\ (now (after_retries backoff url headers attempt k w)
        == now w + backoff_total backoff attempt k)%Q
    /\ length (trace (after_retries backoff url headers attempt k w))
       = (length (trace w) + 2 * k)%nat
    /\ item_prices (after_retries backoff url headers attempt k w) = item_prices w
    /\ inventory_values (after_retries backoff url headers attempt k w)
       = inventory_values w.
Proof.
  induction k as [| k IH]; intros attempt w; cbn [after_retries backoff_total].
  - repeat split; try reflexivity; try lia. ring.
  - destruct (IH (S attempt) (asleep (delay backoff attempt) (issue url headers w)))
      as (Hs & Hn & Ht & Hi & Hv).
    rewrite Hs, Hn, Ht, Hi, Hv. cbn. rewrite !length_app. cbn.
    repeat split; try lia. ring.
Qed.

(** [k] retryable answers in a row are [k] turns of the loop *)
Lemma safe_request_loop_retries e url headers backoff :
  (0 <= backoff)%Q ->
  forall k remaining attempt w,
    (forall i, (i < k)%nat -> retryable (upstream e (sent w + i)) = true) ->
    safe_request_loop e url headers backoff (k + remaining) attempt w
    = safe_request_loop e url headers backoff remaining (attempt + k)
        (after_retries backoff url headers attempt k w).
Proof.
  intros Hb. induction k as [| k IH]; intros remaining attempt w Hall.
  - cbn [after_retries]. now rewrite Nat.add_0_r.
  - cbn [Nat.add after_retries].
    rewrite safe_request_loop_retry; [| exact Hb |].
    + rewrite IH.
      * now replace (S attempt + k)%nat with (attempt + S k)%nat by lia.
      * intros i Hi. cbn. specialize (Hall (S i) ltac:(lia)).
        now replace (S (sent w + i))%nat with (sent w + S i)%nat by lia.
    + apply retryable_cases. specialize (Hall 0%nat ltac:(lia)).
      now rewrite Nat.add_0_r in Hall.
Qed.

(** one turn of the loop on an answer that is not retried *)
Lemma safe_request_loop_decisive e url headers backoff k attempt w :
  retryable (upstream e (sent w)) = false ->
  safe_request_loop e url headers backoff (S k) attempt w
  = (decided (upstream e (sent w)), issue url headers w).
Proof.
  intros Hno. destruct (upstream e (sent w)) as [status_code body | | ex] eqn:Hup;
    [| discriminate | now apply safe_request_loop_unreadable].
  cbn in Hno. cbn [decided payload_of].
  destruct (Z.eqb_spec status_code 200) as [-> | H200].
  - destruct body as [payload |]; [| discriminate].
    now apply safe_request_loop_success.
  - assert (H429 : status_code <> 429%Z) by (intros ->; discriminate).
    rewrite (safe_request_loop_abort e url headers backoff k attempt w _ _ Hup H200 H429).
    now destruct body.
Qed.

(** X5: whatever the upstream answers, [safe_request] sends at most
    [retries] requests and sleeps at most [backoff * n * (n + 1) / 2]
    seconds in all, [n] being the budget; with the defaults that is at most
    3 requests and 9 seconds.  With a budget of zero or less it sends
    nothing and returns no payload. *)
Theorem safe_request_is_bounded e url headers retries backoff w :
  (0 <= backoff)%Q ->
  let n := Z.to_nat retries in
  let w' := snd (safe_request e url headers retries backoff w) in
  (sent w' <= sent w + n)%nat
  /\ (now w' <= now w + backoff_total backoff 0 n)%Q
  /\ (2 * backoff_total backoff 0 n
      == backoff * inject_Z (Z.of_nat n) * (inject_Z (Z.of_nat n) + 1))%Q
  /\ (backoff_total default_backoff 0 (Z.to_nat default_retries) == 9)%Q
  /\ ((retries <= 0)%Z -> safe_request e url headers retries backoff w = (Ret JNull, w)).
Proof.
  intros Hb n w'.
  assert (Hloop : forall k attempt w0,
            (sent (snd (safe_request_loop e url headers backoff k attempt w0))
             <= sent w0 + k)%nat
            /\ (now (snd (safe_request_loop e url headers backoff k attempt w0))
                <= now w0 + backoff_total backoff attempt k)%Q).
  { induction k as [| k IH]; intros attempt w0.
    - cbn. split; [lia | lra].
    - pose proof (backoff_total_nonneg backoff k Hb (S attempt)) as Hrest.
      pose proof (proj1 (Qle_bool_iff _ _) (delay_nonneg backoff attempt Hb)) as Hd.
      destruct (retryable (upstream e (sent w0))) eqn:Hretry.
      + rewrite safe_request_loop_retry;
          [| exact Hb | now apply retryable_cases].
        destruct (IH (S attempt) (asleep (delay backoff attempt) (issue url headers w0)))
          as [Hs Hn].
        cbn in Hs, Hn. cbn [backoff_total]. split; [lia | lra].
      + rewrite (safe_request_loop_decisive e url headers backoff k attempt w0 Hretry).
        cbn. split; [lia | lra]. }
  split; [apply Hloop |]. split; [apply Hloop |]. split.
  - rewrite backoff_total_closed. cbn. ring.
  - split; [reflexivity |].
    intros Hle. unfold safe_request.
    now replace (Z.to_nat retries) with 0%nat by lia.
Qed.

Lemma safe_request_is_bounded_witness :
  let w' := snd (safe_request
                   (env_of None [Response 429 None; RequestException; Response 200 None])
                   "https://example.org/" None 3 (3 # 2) w_start) in
  (sent w' <= sent w_start + 3)%nat
  /\ (now w' <= now w_start + backoff_total (3 # 2) 0 3)%Q
  /\ (2 * backoff_total (3 # 2) 0 3
      == (3 # 2) * inject_Z (Z.of_nat 3) * (inject_Z (Z.of_nat 3) + 1))%Q
  /\ (backoff_total default_backoff 0 (Z.to_nat default_retries) == 9)%Q
  /\ ((3 <= 0)%Z ->
      safe_request (env_of None [Response 429 None; RequestException; Response 200 None])
        "https://example.org/" None 3 (3 # 2) w_start
      = (Ret JNull, w_start)).
Proof.
  apply (safe_request_is_bounded
           (env_of None [Response 429 None; RequestException; Response 200 None])
           "https://example.org/" None 3 (3 # 2) w_start).
  unfold Qle. simpl. lia.
Defined.

(** X6: the first answer that is not retryable decides: after [k] answers
    that were 429, transport failures or 200 with a body that is not JSON,
    and with budget left, a 200 with a JSON body is returned, any other
    status gives no payload, and a 200 on whose body the decoding raises
    what is no [RequestException] ends the wrapper with that exception;
    [k + 1] requests went out and the sleeps were those of the [k] failed
    attempts, none after the deciding one. *)
Theorem safe_request_first_decisive e url headers retries backoff w k :
  (0 <= backoff)%Q ->
  (k < Z.to_nat retries)%nat ->
  (forall i, (i < k)%nat -> retryable (upstream e (sent w + i)) = true) ->
  retryable (upstream e (sent w + k)) = false ->
  let w' := issue url headers (after_retries backoff url headers 0 k w) in
  safe_request e url headers retries backoff w
  = (decided (upstream e (sent w + k)), w')
  /\ sent w' = (sent w + k + 1)%nat
  /\ (now w' == now w + backoff_total backoff 0 k)%Q
  /\ length (trace w') = (length (trace w) + 2 * k + 1)%nat.
Proof.
  intros Hb Hk Hall Hdecide w'.
  destruct (after_retries_facts backoff url headers k 0 w) as (Hs & Hn & Ht & _).
  split.
  - unfold safe_request.
    replace (Z.to_nat retries) with (k + S (Z.to_nat retries - k - 1))%nat by lia.
    rewrite (safe_request_loop_retries e url headers backoff Hb k _ 0 w Hall).
    rewrite safe_request_loop_decisive; rewrite Hs; [reflexivity | exact Hdecide].
  - unfold w'. cbn. rewrite Hs, length_app, Ht. cbn.
    split; [lia |]. split; [exact Hn | lia].
Qed.

Lemma safe_request_first_decisive_witness :
  let e := env_of None [RequestException; Response 200 None;
                        Response 200 (Some overview_payload)] in
  let w' := issue "https://example.org/" None
              (after_retries (3 # 2) "https://example.org/" None 0 2 w_start) in
  safe_request e "https://example.org/" None 3 (3 # 2) w_start
  = (decided (upstream e (sent w_start + 2)), w')
  /\ sent w' = (sent w_start + 2 + 1)%nat
  /\ (now w' == now w_start + backoff_total (3 # 2) 0 2)%Q
  /\ length (trace w') = (length (trace w_start) + 2 * 2 + 1)%nat.
Proof.
  apply (safe_request_first_decisive
           (env_of None [RequestException; Response 200 None;
                         Response 200 (Some overview_payload)])
           "https://example.org/" None 3 (3 # 2) w_start 2).
  - unfold Qle. simpl. lia.
  - simpl. lia.
  - intros i Hi. destruct i as [| [| i]]; [reflexivity | reflexivity | lia].
  - reflexivity.
Defined.

(** X7: when every answer within the budget is retryable, [safe_request]
    gives up with no payload after exactly [n] requests and [n] sleeps, the
    last sleep, of [backoff * n] seconds, coming after the last request. *)
Theorem safe_request_gives_up e url headers retries backoff w :
  (0 <= backoff)%Q ->
  let n := Z.to_nat retries in
  (forall i, (i < n)%nat -> retryable (upstream e (sent w + i)) = true) ->
  let w' := after_retries backoff url headers 0 n w in
  safe_request e url headers retries backoff w = (Ret JNull, w')
  /\ sent w' = (sent w + n)%nat
  /\ (now w' == now w + backoff_total backoff 0 n)%Q
  /\ length (trace w') = (length (trace w) + 2 * n)%nat
  /\ forall m, n = S m -> exists earlier, trace w' = earlier ++ [Sleep (delay backoff m)].
Proof.
  intros Hb n Hall w'.
  destruct (after_retries_facts backoff url headers n 0 w) as (Hs & Hn & Ht & _).
  split; [| split; [exact Hs | split; [exact Hn | split; [exact Ht |]]]].
  - unfold safe_request. fold n.
    replace n with (n + 0)%nat at 1 by lia.
    now rewrite (safe_request_loop_retries e url headers backoff Hb n 0 0 w Hall).
  - intros m Hm. unfold w'. rewrite Hm.
    assert (Hlast : forall k w0 attempt,
              exists earlier,
                trace (after_retries backoff url headers attempt (S k) w0)
                = earlier ++ [Sleep (delay backoff (attempt + k))]).
    { clear. induction k as [| k IH]; intros w0 attempt.
      - cbn [after_retries]. rewrite Nat.add_0_r. now eexists.
      - destruct (IH (asleep (delay backoff attempt) (issue url headers w0)) (S attempt))
          as (earlier & Heq).
        exists earlier.
        change (after_retries backoff url headers attempt (S (S k)) w0)
          with (after_retries backoff url headers (S attempt) (S k)
                  (asleep (delay backoff attempt) (issue url headers w0))).
        rewrite Heq.
        now replace (S attempt + k)%nat with (attempt + S k)%nat by lia. }
    exact (Hlast m w 0%nat).
Qed.

Lemma safe_request_gives_up_witness :
  let e := env_of None [Response 429 None; RequestException; Response 200 None;
                        Response 200 (Some overview_payload)] in
  let w' := after_retries (3 # 2) "https://example.org/" None 0 3 w_start in
  safe_request e "https://example.org/" None 3 (3 # 2) w_start = (Ret JNull, w')
  /\ sent w' = (sent w_start + 3)%nat
  /\ (now w' == now w_start + backoff_total (3 # 2) 0 3)%Q
  /\ length (trace w') = (length (trace w_start) + 2 * 3)%nat
  /\ forall m, 3%nat = S m -> exists earlier, trace w' = earlier ++ [Sleep (delay (3 # 2) m)].
Proof.
  apply (safe_request_gives_up
           (env_of None [Response 429 None; RequestException; Response 200 None;
                         Response 200 (Some overview_payload)])
           "https://example.org/" None 3 (3 # 2) w_start).
  - unfold Qle. simpl. lia.
  - intros i Hi. destruct i as [| [| [| i]]]; try reflexivity. simpl in Hi. lia.
Defined.

(** ** The price functions *)

Lemma split_single_absent c s :
  PyStr.has_char c s = false ->
  forall cur, PyStr.split_from (String c EmptyString) s 0 cur = [(cur ++ s)%string].
Proof.
  induction s as [| d s IH]; intros Hs cur.
  - cbn. now rewrite string_append_empty.
  - cbn [PyStr.has_char] in Hs. apply orb_false_iff in Hs. destruct Hs as [Hd Hs].
    cbn [PyStr.split_from]. rewrite prefix_cons, Hd. cbn [andb].
    rewrite (IH Hs). now rewrite string_append_assoc.
Qed.

Lemma split_single_removes c s :
  forall cur,
    PyStr.has_char c cur = false ->
    existsb (PyStr.has_char c) (PyStr.split_from (String c EmptyString) s 0 cur) = false.
Proof.
  induction s as [| d s IH]; intros cur Hcur.
  - cbn. now rewrite Hcur.
  - cbn [PyStr.split_from]. rewrite prefix_cons, prefix_empty, andb_true_r.
    destruct (Ascii.eqb c d) eqn:Hd.
    + cbn [existsb String.length Nat.sub]. rewrite Hcur. cbn [orb]. now apply IH.
    + apply IH. rewrite has_char_append, Hcur. cbn. now rewrite Hd.
Qed.

Lemma replace_single_removes c s :
  PyStr.has_char c (PyStr.replace (String c EmptyString) EmptyString s) = false.
Proof.
  unfold PyStr.replace, PyStr.split. apply has_char_join_empty.
  now apply split_single_removes.
Qed.

Lemma replace_single_absent c s :
  PyStr.has_char c s = false ->
  PyStr.replace (String c EmptyString) EmptyString s = s.
Proof.
  intros Hs. unfold PyStr.replace, PyStr.split.
  now rewrite (split_single_absent c s Hs).
Qed.

Lemma lstrip_shape s :
  PyStr.lstrip s = EmptyString
  \/ exists c rest, PyStr.lstrip s = String c rest /\ PyStr.is_space c = false.
Proof.
  induction s as [| c s IH]; [now left |].
  cbn [PyStr.lstrip]. destruct (PyStr.is_space c) eqn:Hc; [exact IH |].
  right. now exists c, s.
Qed.

Lemma rstrip_idempotent s : PyStr.rstrip (PyStr.rstrip s) = PyStr.rstrip s.
Proof.
  induction s as [| c s IH]; [reflexivity |].
  cbn [PyStr.rstrip]. destruct (PyStr.rstrip s) as [| d r] eqn:Hr.
  - destruct (PyStr.is_space c) eqn:Hc; [reflexivity |].
    cbn [PyStr.rstrip]. now rewrite Hc.
  - change (PyStr.rstrip (String c (String d r)))
      with (match PyStr.rstrip (String d r) with
            | EmptyString => if PyStr.is_space c then EmptyString else String c EmptyString
            | String x y => String c (String x y)
            end).
    now rewrite IH.
Qed.

Lemma strip_idempotent s : PyStr.strip (PyStr.strip s) = PyStr.strip s.
Proof.
  unfold PyStr.strip.
  destruct (lstrip_shape s) as [-> | (c & rest & -> & Hc)]; [reflexivity |].
  assert (Hhead : exists r, PyStr.rstrip (String c rest) = String c r).
  { cbn [PyStr.rstrip]. destruct (PyStr.rstrip rest).
    - rewrite Hc. now eexists.
    - now eexists. }
  destruct Hhead as (r & Hr).
  replace (PyStr.lstrip (PyStr.rstrip (String c rest))) with (PyStr.rstrip (String c rest)).
  - apply rstrip_idempotent.
  - rewrite Hr. cbn [PyStr.lstrip]. now rewrite Hc.
Qed.

(** X8: what [get_steam_market_price] hands to [float] holds no dollar
    sign and no comma, whatever the price string was, and cleaning a
    cleaned string changes nothing. *)
Theorem clean_price_is_clean s :
  PyStr.has_char "$" (clean_price s) = false
  /\ PyStr.has_char "," (clean_price s) = false
  /\ clean_price (clean_price s) = clean_price s.
Proof.
  assert (Hdollar : PyStr.has_char "$" (clean_price s) = false).
  { unfold clean_price. apply has_char_strip, has_char_replace_empty.
    apply replace_single_removes. }
  assert (Hcomma : PyStr.has_char "," (clean_price s) = false).
  { unfold clean_price. apply has_char_strip. apply replace_single_removes. }
  split; [exact Hdollar | split; [exact Hcomma |]].
  unfold clean_price at 1.
  rewrite (replace_single_absent "$" _ Hdollar), (replace_single_absent "," _ Hcomma).
  unfold clean_price. apply strip_idempotent.
Qed.

(** X9: when the price cache has nothing fresh for the item and the
    source answers the first request with a 200 whose payload decodes to a
    price, [get_item_price] returns that price after exactly one request,
    to the URL and with the headers of the configured source; it stores
    the price until 3600 seconds after the call, draws one random number
    and sleeps once, for the jitter. *)
Theorem get_item_price_first_answer e market_hash w data price :
  select_fresh w (item_prices w) market_hash = None ->
  upstream e (sent w) = Response 200 (Some data) ->
  price_of e data = inr price ->
  exists w',
    get_item_price e market_hash w = (Ret price, w')
    /\ sent w' = S (sent w)
    /\ drawn w' = S (drawn w)
    /\ trace w' = trace w ++ [Get (price_url e market_hash) (price_headers e);
                              Sleep (jitter e (drawn w))]
    /\ item_prices w' = <[market_hash := (price, (now w + item_ttl)%Q)]> (item_prices w)
    /\ now w' = (now w + jitter e (drawn w))%Q.
Proof.
  intros Hmiss Hup Hprice.
  assert (Hfetch :
    safe_request e (price_url e market_hash) (price_headers e)
      default_retries default_backoff w
    = (Ret data, issue (price_url e market_hash) (price_headers e) w)).
  { unfold safe_request. change (Z.to_nat default_retries) with 3%nat.
    now apply safe_request_loop_success. }
  rewrite (get_item_price_miss e market_hash w data _ Hmiss Hfetch), Hprice.
  eexists. split; [reflexivity |]. cbn.
  repeat split. now rewrite <- app_assoc.
Qed.

Lemma get_item_price_first_answer_witness :
  exists w',
    get_item_price sample_env "AK-47 | Redline (Field-Tested)" w_start
    = (Ret (1230 # 100)%Q, w')
    /\ sent w' = S (sent w_start)
    /\ drawn w' = S (drawn w_start)
    /\ trace w' = trace w_start
                  ++ [Get (price_url sample_env "AK-47 | Redline (Field-Tested)")
                        (price_headers sample_env);
                      Sleep (jitter sample_env (drawn w_start))]
    /\ item_prices w'
       = <["AK-47 | Redline (Field-Tested)" := ((1230 # 100)%Q, (now w_start + item_ttl)%Q)]>
           (item_prices w_start)
    /\ now w' = (now w_start + jitter sample_env (drawn w_start))%Q.
Proof.
  apply (get_item_price_first_answer sample_env "AK-47 | Redline (Field-Tested)" w_start
           overview_payload (1230 # 100)%Q).
  - vm_compute. reflexivity.
  - reflexivity.
  - vm_compute. reflexivity.
Defined.

(** X10: when [get_item_price] returns a price, the price cache holds that
    price, fresh, under the item; no other key of the price cache has
    changed, the valuation cache has not changed, and at most one random
    number was drawn. *)
Theorem get_item_price_leaves_price_cached e market_hash w price w' :
  get_item_price e market_hash w = (Ret price, w') ->
  select_fresh w' (item_prices w') market_hash = Some price
  /\ (forall other, other <> market_hash ->
        item_prices w' !! other = item_prices w !! other)
  /\ inventory_values w' = inventory_values w
  /\ (drawn w' <= S (drawn w))%nat.
Proof.
  intros Hrun.
  destruct (get_item_price_cases e market_hash w)
    as [(p & Hsel & Hhit) | [(_ & data & wf & _ & Hfr & _ & Hmiss)
                            | (_ & ex & wf & _ & _ & Hraise)]];
    [| | rewrite Hraise in Hrun; discriminate].
  - rewrite Hhit in Hrun. injection Hrun as <- <-.
    split; [exact Hsel |]. split; [reflexivity |]. split; [reflexivity | lia].
  - rewrite Hmiss in Hrun.
    destruct (price_of e data) as [ex | p]; [discriminate |].
    injection Hrun as <- <-.
    destruct Hfr as (Hitems & Hvalues & Hdrawn & _).
    split; [| split; [| split]].
    + apply select_fresh_hit with (expires := (now wf + item_ttl)%Q).
      * cbn. apply lookup_insert_eq.
      * destruct (jitter_bounds e (drawn wf)) as [_ Hhi]. cbn. unfold item_ttl. lra.
    + intros other Hother. cbn. rewrite lookup_insert_ne by congruence.
      now rewrite Hitems.
    + exact Hvalues.
    + cbn. lia.
Qed.

Lemma get_item_price_leaves_price_cached_witness :
  select_fresh (snd sample_resolution) (item_prices (snd sample_resolution))
    "AK-47 | Redline (Field-Tested)"
  = Some (1230 # 100)%Q
  /\ (forall other, other <> "AK-47 | Redline (Field-Tested)" ->
        item_prices (snd sample_resolution) !! other = item_prices w_start !! other)
  /\ inventory_values (snd sample_resolution) = inventory_values w_start
  /\ (drawn (snd sample_resolution) <= S (drawn w_start))%nat.
Proof.
  apply (get_item_price_leaves_price_cached sample_env "AK-47 | Redline (Field-Tested)"
           w_start (1230 # 100)%Q (snd sample_resolution)).
  vm_compute. reflexivity.
Defined.

(** ** Where the key goes *)

Lemma forallb_snoc {A} (f : A -> bool) (l : list A) (x : A) :
  forallb f l = true -> f x = true -> forallb f (l ++ [x]) = true.
Proof. intros Hl Hx. rewrite forallb_app, Hl. cbn. now rewrite Hx. Qed.

(** the fetch wrapper logs its own request and sleeps, nothing else *)
Lemma safe_request_loop_trace (P : event -> bool) e url headers backoff :
  P (Get url headers) = true ->
  (forall d, P (Sleep d) = true) ->
  forall remaining attempt w,
    forallb P (trace w) = true ->
    forallb P (trace (snd (safe_request_loop e url headers backoff remaining attempt w)))
    = true.
Proof.
  intros Hget Hsleep. induction remaining as [| k IH]; intros attempt w Hw.
  - exact Hw.
  - assert (Hissue : forallb P (trace (issue url headers w)) = true).
    { cbn. now apply forallb_snoc. }
    assert (Hretry :
      forallb P
        (trace (snd ((time_sleep (delay backoff attempt) ;;
                      safe_request_loop e url headers backoff k (S attempt))%py
                       (issue url headers w)))) = true).
    { unfold bind, time_sleep.
      destruct (Qle_bool 0 (delay backoff attempt)); [| exact Hissue].
      apply IH. cbn. apply forallb_snoc; [| apply Hsleep]. now apply forallb_snoc. }
    cbn [safe_request_loop]. unfold bind at 1, requests_get.
    destruct (upstream e (sent w)) as [status_code body | | ex];
      [| exact Hretry | exact Hissue].
    destruct (status_code =? 200)%Z.
    + destruct body; [exact Hissue | exact Hretry].
    + destruct (status_code =? 429)%Z; [exact Hretry | exact Hissue].
Qed.

Lemma key_safe_price_request e market_hash :
  key_safe (Get (price_url e market_hash) (price_headers e)) = true.
Proof.
  unfold key_safe, price_url, price_headers. destruct (api_key_set e); [| reflexivity].
  cbn [to_csfloat]. unfold csfloat_url.
  change ("https://api.csfloat.com/api/v1/listings?search=" ++ PyStr.quote market_hash)%string
    with ("https://api.csfloat.com/"
          ++ ("api/v1/listings?search=" ++ PyStr.quote market_hash))%string.
  rewrite prefix_append. apply implb_true_r.
Qed.

Lemma get_item_price_key_safe e market_hash w :
  forallb key_safe (trace w) = true ->
  forallb key_safe (trace (snd (get_item_price e market_hash w))) = true.
Proof.
  intros Hw.
  destruct (select_fresh w (item_prices w) market_hash) as [price |] eqn:Hmiss;
    [now rewrite (get_item_price_hit e market_hash w price Hmiss) |].
  destruct (safe_request e (price_url e market_hash) (price_headers e)
              default_retries default_backoff w) as [[data | ex] wf] eqn:Hfetch.
  2: { rewrite (get_item_price_fetch_raises e market_hash w ex wf Hmiss Hfetch). cbn [snd].
       pose proof (safe_request_loop_trace key_safe e (price_url e market_hash)
                     (price_headers e) default_backoff
                     (key_safe_price_request e market_hash) (fun d => eq_refl)
                     (Z.to_nat default_retries) 0 w Hw) as Hwf.
       fold (safe_request e (price_url e market_hash) (price_headers e)
               default_retries default_backoff) in Hwf.
       now rewrite Hfetch in Hwf. }
  pose proof (safe_request_loop_trace key_safe e (price_url e market_hash)
                (price_headers e) default_backoff
                (key_safe_price_request e market_hash) (fun d => eq_refl)
                (Z.to_nat default_retries) 0 w Hw) as Hwf.
  fold (safe_request e (price_url e market_hash) (price_headers e)
          default_retries default_backoff) in Hwf.
  rewrite Hfetch in Hwf. cbn [snd] in Hwf.
  rewrite (get_item_price_miss e market_hash w data wf Hmiss Hfetch).
  destruct (price_of e data) as [ex | price]; [exact Hwf |].
  cbn. now apply forallb_snoc.
Qed.

(** X11: a request that carries headers, and so the key, goes to the
    listings service: whatever [value] is asked and whatever the upstream
    answers, every request it logs with headers has a URL that begins with
    [https://api.csfloat.com/]; the inventory and the price overview are
    asked without headers. *)
Theorem value_sends_key_to_csfloat_only e trade_url detailed_arg w :
  forallb key_safe (trace w) = true ->
  forallb key_safe (trace (snd (value e trade_url detailed_arg w))) = true.
Proof.
  intros Hw.
  assert (Hcompute : forall detailed steamid,
            forallb key_safe (trace (snd (value_compute e steamid detailed w))) = true).
  { intros detailed steamid. unfold value_compute, bind.
    pose proof (safe_request_loop_trace key_safe e (inventory_url steamid) None
                  default_backoff eq_refl (fun d => eq_refl)
                  (Z.to_nat default_retries) 0 w Hw) as Hwf.
    fold (safe_request e (inventory_url steamid) None default_retries default_backoff)
      in Hwf.
    destruct (safe_request e (inventory_url steamid) None default_retries default_backoff w)
      as [[inv | ex] wf] eqn:Hfetch; cbn [snd] in Hwf; [| exact Hwf].
    destruct (value_items e steamid detailed inv wf) as [r w'] eqn:Hitems. cbn [snd].
    destruct (value_items_cases e steamid detailed inv wf r w' Hitems)
      as [[-> _] | (l & Hloop)]; [exact Hwf |].
    pose proof (value_loop_invariant e detailed
                  (fun w0 => forallb key_safe (trace w0) = true)
                  (fun _ => True) (fun _ => True)) as Hinv.
    specialize (Hinv
      (fun market_hash w1 Hw1 =>
         match get_item_price e market_hash w1 as x
           return forallb key_safe (trace (snd x)) = true ->
                  match x with
                  | (Ret _, w2) => forallb key_safe (trace w2) = true /\ True
                  | (Raise _, w2) => forallb key_safe (trace w2) = true
                  end
         with
         | (Ret _, w2) => fun H => conj H I
         | (Raise _, w2) => fun H => H
         end (get_item_price_key_safe e market_hash w1 Hw1))
      (fun _ _ _ _ => I) l 0%Q [] wf Hwf I).
    destruct (value_loop e detailed l 0%Q [] wf) as [[[t ds] | ex] w2];
      destruct Hloop as [_ ->]; [apply Hinv | exact Hinv]. }
  unfold value.
  destruct (extract_steamid trade_url) as [steamid |]; [| exact Hw].
  destruct (String.eqb steamid EmptyString); [exact Hw |].
  unfold bind, get_cached_value.
  destruct (select_fresh w (inventory_values w) steamid) as [total |].
  - destruct (negb (detailed_of detailed_arg)); [exact Hw | apply Hcompute].
  - apply Hcompute.
Qed.

Lemma value_sends_key_to_csfloat_only_witness :
  forallb key_safe (trace (snd (value negative_env sample_url None w_start))) = true.
Proof.
  apply (value_sends_key_to_csfloat_only negative_env sample_url None w_start).
  reflexivity.
Defined.

(** ** The handler beyond the cache hit *)

(** X12: what [value] leaves behind, by how it answers.  A 400 leaves the
    world as it was.  A 502 or a 404 comes from the inventory fetch alone:
    both caches are as before.  An exception leaves the valuation cache as
    before.  A 200 is either a cache hit, with the world as it was, or a
    fresh computation, which changes the valuation cache at the row of the
    user and nowhere else.  No other status is ever returned. *)
Theorem value_outcomes e trade_url detailed_arg w :
  match value e trade_url detailed_arg w with
  | (Ret (body, status), w') =>
      (status = 400%Z /\ body = error_body "Invalid URL" /\ w' = w)
      \/ (status = 502%Z /\ body = error_body "Failed to fetch inventory"
          /\ item_prices w' = item_prices w /\ inventory_values w' = inventory_values w)
      \/ (status = 404%Z /\ body = error_body "No items found"
          /\ item_prices w' = item_prices w /\ inventory_values w' = inventory_values w)
      \/ (status = 200%Z /\ field "cached" body = Some (JBool true) /\ w' = w)
      \/ (status = 200%Z /\ field "cached" body = Some (JBool false)
          /\ exists steamid total_value,
              extract_steamid trade_url = Some steamid
              /\ inventory_values w'
                 = <[steamid := (total_value, (now w' + value_ttl)%Q)]> (inventory_values w))
  | (Raise _, w') => inventory_values w' = inventory_values w
  end.
Proof.
  assert (Hcompute : forall steamid detailed,
    extract_steamid trade_url = Some steamid ->
    match value_compute e steamid detailed w with
    | (Ret (body, status), w') =>
        (status = 400%Z /\ body = error_body "Invalid URL" /\ w' = w)
        \/ (status = 502%Z /\ body = error_body "Failed to fetch inventory"
            /\ item_prices w' = item_prices w /\ inventory_values w' = inventory_values w)
        \/ (status = 404%Z /\ body = error_body "No items found"
            /\ item_prices w' = item_prices w /\ inventory_values w' = inventory_values w)
        \/ (status = 200%Z /\ field "cached" body = Some (JBool true) /\ w' = w)
        \/ (status = 200%Z /\ field "cached" body = Some (JBool false)
            /\ exists steamid total_value,
                extract_steamid trade_url = Some steamid
                /\ inventory_values w'
                   = <[steamid := (total_value, (now w' + value_ttl)%Q)]>
                       (inventory_values w))
    | (Raise _, w') => inventory_values w' = inventory_values w
    end).
  { intros steamid detailed Hid. unfold value_compute, bind.
    destruct (safe_request_default_spec e (inventory_url steamid) None w)
      as ([inv | ex] & wf & Hfetch & _ & (Hitems & Hvalues & _) & _);
      rewrite Hfetch; [| exact Hvalues].
    rewrite value_items_unfold.
    destruct (if truthy inv then py_in "descriptions" inv else inr false)
      as [ex | [|]]; [exact Hvalues | | right; left; now repeat split].
    destruct (dict_get inv "descriptions" (JArr [])) as [ex | items]; [exact Hvalues |].
    destruct (truthy items); [| right; right; left; now repeat split].
    destruct (py_iter items) as [ex | l]; [exact Hvalues |].
    destruct (value_loop e detailed l 0%Q [] wf) as [[[t ds] | ex] w2] eqn:Hloop;
      destruct (value_loop_frame _ _ _ _ _ _ _ _ Hloop) as (Hv2 & _).
    - right; right; right; right. split; [reflexivity |].
      split; [apply field_computed_body |].
      exists steamid, t. split; [exact Hid |]. cbn. now rewrite Hv2, Hvalues.
    - now rewrite Hv2. }
  unfold value.
  destruct (extract_steamid trade_url) as [steamid |] eqn:Hid;
    [| left; now repeat split].
  destruct (String.eqb steamid EmptyString); [left; now repeat split |].
  unfold bind, get_cached_value.
  destruct (select_fresh w (inventory_values w) steamid) as [total |].
  - destruct (negb (detailed_of detailed_arg)).
    + right; right; right; left. now repeat split.
    + now apply Hcompute.
  - now apply Hcompute.
Qed.

(** with and without detail the loop does the same to the world and adds
    up the same total *)
Lemma value_loop_detail e items :
  forall total_value details1 details2 w,
    snd (value_loop e true items total_value details1 w)
    = snd (value_loop e false items total_value details2 w)
    /\ loop_total (fst (value_loop e true items total_value details1 w))
       = loop_total (fst (value_loop e false items total_value details2 w)).
Proof.
  induction items as [| item rest IH]; intros total_value details1 details2 w.
  - cbn. now split.
  - rewrite !value_loop_cons.
    destruct (dict_get item "market_hash_name" JNull) as [ex | market_hash];
      [now split |].
    destruct (truthy market_hash); [| apply IH].
    destruct market_hash as [| b | q | name | l | kv]; try (now split).
    destruct (get_item_price e name w) as [[price | ex] w1]; [apply IH | now split].
Qed.

(** X13: for a user without a fresh total, asking for detail or not makes
    no difference to what [value] does: the same requests and sleeps, the
    same two caches afterwards, and the same status, total, flags and
    source (or the same exception); detail only adds the item list. *)
Theorem detail_changes_only_the_item_list e trade_url w steamid arg1 arg2 :
  extract_steamid trade_url = Some steamid ->
  select_fresh w (inventory_values w) steamid = None ->
  snd (value e trade_url arg1 w) = snd (value e trade_url arg2 w)
  /\ summary (fst (value e trade_url arg1 w)) = summary (fst (value e trade_url arg2 w)).
Proof.
  intros Hid Hcold.
  assert (Hvalue : forall arg,
            value e trade_url arg w
            = if String.eqb steamid EmptyString
              then (Ret (error_body "Invalid URL", 400%Z), w)
              else value_compute e steamid (detailed_of arg) w).
  { intros arg. unfold value. rewrite Hid.
    destruct (String.eqb steamid EmptyString); [reflexivity |].
    unfold bind, get_cached_value. now rewrite Hcold. }
  rewrite !Hvalue. destruct (String.eqb steamid EmptyString); [now split |].
  assert (Hsame : snd (value_compute e steamid true w) = snd (value_compute e steamid false w)
                  /\ summary (fst (value_compute e steamid true w))
                     = summary (fst (value_compute e steamid false w))).
  { unfold value_compute, bind.
    destruct (safe_request e (inventory_url steamid) None default_retries default_backoff w)
      as [[inv | ex] wf]; [| now split].
    rewrite !value_items_unfold.
    destruct (if truthy inv then py_in "descriptions" inv else inr false)
      as [ex | [|]]; try (now split).
    destruct (dict_get inv "descriptions" (JArr [])) as [ex | items]; [now split |].
    destruct (truthy items); [| now split].
    destruct (py_iter items) as [ex | l]; [now split |].
    pose proof (value_loop_detail e l 0%Q [] [] wf) as [Hw Ht].
    destruct (value_loop e true l 0%Q [] wf) as [[[t1 ds1] | ex1] w1];
      destruct (value_loop e false l 0%Q [] wf) as [[[t2 ds2] | ex2] w2];
      cbn in Hw, Ht; try discriminate; subst w2.
    - injection Ht as ->. now split.
    - injection Ht as ->. now split. }
  destruct (detailed_of arg1), (detailed_of arg2);
    destruct Hsame as [Hw Hs]; split; congruence.
Qed.

Lemma detail_changes_only_the_item_list_witness :
  snd (value three_items_env sample_url (Some "true") w_start)
  = snd (value three_items_env sample_url None w_start)
  /\ summary (fst (value three_items_env sample_url (Some "true") w_start))
     = summary (fst (value three_items_env sample_url None w_start)).
Proof.
  apply (detail_changes_only_the_item_list three_items_env sample_url w_start
           sample_steamid (Some "true") None).
  - reflexivity.
  - reflexivity.
Defined.

(** the resolutions that return give one price per name, in order *)
Lemma resolve_all_names e names :
  forall w prices w',
    resolve_all e names w = (Ret prices, w') -> map fst prices = names.
Proof.
  induction names as [| name rest IH]; intros w prices w' Hrun.
  - cbn in Hrun. now injection Hrun as <- _.
  - cbn [resolve_all] in Hrun. unfold bind at 1 in Hrun.
    destruct (get_item_price e name w) as [[price | ex] w1]; [| discriminate].
    unfold bind in Hrun.
    destruct (resolve_all e rest w1) as [[ps | ex] w2] eqn:Hrest; [| discriminate].
    injection Hrun as <- _. cbn. now rewrite (IH _ _ _ Hrest).
Qed.

(** X14: on an inventory whose entries are objects with a string or a
    falsy market name, a fresh valuation is one call of [get_item_price]
    for each entry with a non-empty name, in the order of the inventory
    and each in the world the one before left; the other entries are
    skipped.  When the calls return, the total it stores is 0.0 with the
    returned prices added in that order, the total it reports is that
    total rounded, the caches are otherwise those the calls left, and the
    detailed list, when asked for, holds the name and the rounded price
    of every priced item, sorted.  When a call raises, the valuation ends
    with that exception in the world the call left. *)
Theorem value_total_is_sum e steamid detailed fields l wf :
  assoc_last "descriptions" fields = Some (JArr l) ->
  l <> [] ->
  forallb well_shaped l = true ->
  match resolve_all e (market_names l) wf with
  | (Ret prices, w2) =>
      exists body w',
        value_items e steamid detailed (JObj fields) wf = (Ret (body, 200%Z), w')
        /\ map fst prices = market_names l
        /\ inventory_values w'
           = <[steamid := (accumulate 0 prices, (now w2 + value_ttl)%Q)]> (inventory_values wf)
        /\ item_prices w' = item_prices w2
        /\ sent w' = sent w2
        /\ trace w' = trace w2
        /\ field "total" body = Some (JNum (round2 (accumulate 0 prices)))
        /\ field "items" body
           = if detailed
             then Some (JArr (map item_json (sorted_desc (map rounded prices))))
             else None
  | (Raise ex, w2) =>
      value_items e steamid detailed (JObj fields) wf = (Raise ex, w2)
  end.
Proof.
  intros Hdesc Hl Hshape.
  rewrite (value_items_resolve e steamid detailed fields l wf Hdesc Hl Hshape).
  destruct (resolve_all e (market_names l) wf) as [[prices | ex] w2] eqn:Hrun;
    [| reflexivity].
  eexists _, _. split; [reflexivity |].
  split; [exact (resolve_all_names e _ _ _ _ Hrun) |].
  destruct (resolve_all_frame e _ _ _ _ Hrun) as (Hvalues & _).
  split; [cbn; now rewrite Hvalues |].
  split; [reflexivity |]. split; [reflexivity |]. split; [reflexivity |].
  split; [apply field_computed_body |]. now destruct detailed.
Qed.

Lemma value_total_is_sum_witness :
  let wf := issue (inventory_url sample_steamid) None w_start in
  match resolve_all subcent_env
          (market_names [JObj [("market_hash_name", JStr "Sticker | Example")]]) wf with
  | (Ret prices, w2) =>
      exists body w',
        value_items subcent_env sample_steamid false subcent_inventory wf
        = (Ret (body, 200%Z), w')
        /\ map fst prices
           = market_names [JObj [("market_hash_name", JStr "Sticker | Example")]]
        /\ inventory_values w'
           = <[sample_steamid := (accumulate 0 prices, (now w2 + value_ttl)%Q)]>
               (inventory_values wf)
        /\ item_prices w' = item_prices w2
        /\ sent w' = sent w2
        /\ trace w' = trace w2
        /\ field "total" body = Some (JNum (round2 (accumulate 0 prices)))
        /\ field "items" body = None
  | (Raise ex, w2) =>
      value_items subcent_env sample_steamid false subcent_inventory wf = (Raise ex, w2)
  end.
Proof.
  intros wf.
  refine (value_total_is_sum subcent_env sample_steamid false
            [("descriptions", JArr [JObj [("market_hash_name", JStr "Sticker | Example")]])]
            [JObj [("market_hash_name", JStr "Sticker | Example")]] wf eq_refl _ eq_refl).
  discriminate.
Defined.

(** the valuation of the three items: the second entry has no market
    name; the prices 0.125, 45.50 and 0.125 are added up to 45.75, and
    the list holds them rounded, the highest first and the two equal
    ones in the order of the inventory *)
Example three_items_run :
  fst three_items_valuation
  = Ret (JObj [("steamid", JStr sample_steamid);
               ("total", JNum (4575 # 100));
               ("cached", JBool false);
               ("source", JStr "Steam Market");
               ("items", JArr [JObj [("name", JStr "AWP | Asiimov");
                                     ("price_usd", JNum (4550 # 100))];
                               JObj [("name", JStr "Glock-18 | Fade");
                                     ("price_usd", JNum (12 # 100))];
                               JObj [("name", JStr "P250 | Sand Dune");
                                     ("price_usd", JNum (12 # 100))]])],
         200%Z)
  /\ sent (snd three_items_valuation) = 4%nat.
Proof. vm_compute. split; reflexivity. Qed.

(** ** The detailed list *)

Lemma insert_desc_perm x l : Permutation (insert_desc x l) (x :: l).
Proof.
  induction l as [| y rest IH]; [reflexivity |].
  cbn [insert_desc]. destruct (Qle_bool (snd y) (snd x)); [reflexivity |].
  rewrite IH. apply perm_swap.
Qed.

Lemma insert_desc_Forall (P : string * Q -> Prop) x l :
  P x -> Forall P l -> Forall P (insert_desc x l).
Proof.
  intros Hx Hl. induction Hl as [| y rest Hy Hrest IH]; cbn [insert_desc].
  - now constructor.
  - destruct (Qle_bool (snd y) (snd x)); repeat constructor; assumption.
Qed.

Lemma insert_desc_sorted x l :
  StronglySorted (fun a b => (snd b <= snd a)%Q) l ->
  StronglySorted (fun a b => (snd b <= snd a)%Q) (insert_desc x l).
Proof.
  induction l as [| y rest IH]; intros Hl; cbn [insert_desc].
  - repeat constructor.
  - apply StronglySorted_inv in Hl. destruct Hl as [Hrest Hy].
    destruct (Qle_bool (snd y) (snd x)) eqn:Hle.
    + apply Qle_bool_iff in Hle. constructor.
      * now constructor.
      * constructor; [exact Hle |].
        eapply Forall_impl; [exact Hy |]. intros z Hz. cbn in Hz.
        eapply Qle_trans; eassumption.
    + assert (Hlt : (snd x <= snd y)%Q).
      { apply Qlt_le_weak, Qnot_le_lt. intros Hge.
        apply Qle_bool_iff in Hge. congruence. }
      constructor; [now apply IH |].
      now apply insert_desc_Forall.
Qed.

Lemma insert_desc_filter q x l :
  List.filter (fun y => Qeq_bool (snd y) q) (insert_desc x l)
  = List.filter (fun y => Qeq_bool (snd y) q) (x :: l).
Proof.
  induction l as [| y rest IH]; [reflexivity |].
  cbn [insert_desc]. destruct (Qle_bool (snd y) (snd x)) eqn:Hle; [reflexivity |].
  cbn [List.filter] in *. rewrite IH.
  destruct (Qeq_bool (snd x) q) eqn:Hx; [| reflexivity].
  destruct (Qeq_bool (snd y) q) eqn:Hy; [| reflexivity].
  apply Qeq_bool_iff in Hx, Hy.
  assert (Hge : Qle_bool (snd y) (snd x) = true).
  { apply Qle_bool_iff. rewrite Hx, Hy. apply Qle_refl. }
  congruence.
Qed.

Lemma sorted_desc_facts item_details :
  Permutation (sorted_desc item_details) item_details
  /\ StronglySorted (fun a b => (snd b <= snd a)%Q) (sorted_desc item_details)
  /\ forall q,
      List.filter (fun y => Qeq_bool (snd y) q) (sorted_desc item_details)
      = List.filter (fun y => Qeq_bool (snd y) q) item_details.
Proof.
  unfold sorted_desc. induction item_details as [| x rest IH]; cbn [fold_right].
  - split; [reflexivity |]. split; [constructor | reflexivity].
  - destruct IH as (Hperm & Hsorted & Hstable). split; [| split].
    + rewrite insert_desc_perm. now constructor.
    + now apply insert_desc_sorted.
    + intros q. rewrite insert_desc_filter. cbn [List.filter]. now rewrite Hstable.
Qed.

(** a 200 of [value_items] went through the loop over the descriptions
    of the inventory *)
Lemma value_items_200 e steamid detailed inv wf body w' :
  value_items e steamid detailed inv wf = (Ret (body, 200%Z), w') ->
  exists items l total_value item_details w2,
    dict_get inv "descriptions" (JArr []) = inr items
    /\ py_iter items = inr l
    /\ value_loop e detailed l 0%Q [] wf = (Ret (total_value, item_details), w2)
    /\ body = computed_body e steamid detailed total_value item_details
    /\ w' = recorded steamid total_value w2.
Proof.
  rewrite value_items_unfold. intros Hrun.
  destruct (if truthy inv then py_in "descriptions" inv else inr false)
    as [ex | [|]]; try discriminate.
  destruct (dict_get inv "descriptions" (JArr [])) as [ex | items] eqn:Hitems;
    [discriminate |].
  destruct (truthy items); [| discriminate].
  destruct (py_iter items) as [ex | l] eqn:Hiter; [discriminate |].
  destruct (value_loop e detailed l 0%Q [] wf) as [[[t ds] | ex] w2] eqn:Hloop;
    [| discriminate].
  injection Hrun as <- <-. now exists items, l, t, ds, w2.
Qed.

(** X15: a 200 of [value] without detail has no item list.  The item list
    of a detailed 200 is what the loop over the descriptions of the
    fetched inventory collected, sorted by price, highest first: it holds
    the same entries, each price is at most the ones before it, and
    entries of equal price keep the order in which the loop met them. *)
Theorem detailed_items_are_sorted e trade_url detailed_arg w body w' :
  value e trade_url detailed_arg w = (Ret (body, 200%Z), w') ->
  (detailed_of detailed_arg = false -> field "items" body = None)
  /\ (detailed_of detailed_arg = true ->
      exists steamid inv wf items l total_value item_details w2 listed,
        extract_steamid trade_url = Some steamid
        /\ safe_request e (inventory_url steamid) None default_retries default_backoff w
           = (Ret inv, wf)
        /\ dict_get inv "descriptions" (JArr []) = inr items
        /\ py_iter items = inr l
        /\ value_loop e true l 0%Q [] wf = (Ret (total_value, item_details), w2)
        /\ field "items" body = Some (JArr (map item_json listed))
        /\ Permutation listed item_details
        /\ StronglySorted (fun a b => (snd b <= snd a)%Q) listed
        /\ forall q,
            List.filter (fun y => Qeq_bool (snd y) q) listed
            = List.filter (fun y => Qeq_bool (snd y) q) item_details).
Proof.
  intros Hrun.
  destruct (value_200 e trade_url detailed_arg w body w' Hrun)
    as (steamid & Hid & _ & [(total & _ & Hflag & _ & ->) | [Hcomp _]]).
  - split; [reflexivity | congruence].
  - unfold value_compute in Hcomp. unfold bind at 1 in Hcomp.
    destruct (safe_request e (inventory_url steamid) None default_retries default_backoff w)
      as [[inv | ex] wf] eqn:Hfetch; [| discriminate].
    destruct (value_items_200 e steamid _ inv wf body w' Hcomp)
      as (items & l & t & ds & w2 & Hitems & Hiter & Hloop & -> & _).
    split; intros Hflag; rewrite Hflag in *; [reflexivity |].
    destruct (sorted_desc_facts ds) as (Hperm & Hsorted & Hstable).
    exists steamid, inv, wf, items, l, t, ds, w2, (sorted_desc ds).
    refine (conj Hid (conj Hfetch (conj Hitems (conj Hiter (conj Hloop
              (conj _ (conj Hperm (conj Hsorted Hstable)))))))).
    reflexivity.
Qed.

Lemma detailed_items_are_sorted_witness :
  (detailed_of (Some "true") = false ->
   field "items" (match fst three_items_valuation with
                  | Ret (body, _) => body
                  | Raise _ => JNull
                  end) = None)
  /\ (detailed_of (Some "true") = true ->
      exists steamid inv wf items l total_value item_details w2 listed,
        extract_steamid sample_url = Some steamid
        /\ safe_request three_items_env (inventory_url steamid) None default_retries
             default_backoff w_start
           = (Ret inv, wf)
        /\ dict_get inv "descriptions" (JArr []) = inr items
        /\ py_iter items = inr l
        /\ value_loop three_items_env true l 0%Q [] wf
           = (Ret (total_value, item_details), w2)
        /\ field "items" (match fst three_items_valuation with
                          | Ret (body, _) => body
                          | Raise _ => JNull
                          end)
           = Some (JArr (map item_json listed))
        /\ Permutation listed item_details
        /\ StronglySorted (fun a b => (snd b <= snd a)%Q) listed
        /\ forall q,
            List.filter (fun y => Qeq_bool (snd y) q) listed
            = List.filter (fun y => Qeq_bool (snd y) q) item_details).
Proof.
  apply (detailed_items_are_sorted three_items_env sample_url (Some "true") w_start
           (match fst three_items_valuation with
            | Ret (body, _) => body
            | Raise _ => JNull
            end)
           (snd three_items_valuation)).
  vm_compute. reflexivity.
Defined.

(** ** A warm price cache, and the pace of a cold one *)

(** X17: when the price cache holds a fresh price for every named item of
    a list, the loop of [value] over that list leaves the world as it is:
    no request, no sleep, no draw, no write; and the total it returns, if
    it returns, is the sum of the cached prices. *)
Theorem warm_prices_cost_nothing e detailed items total_value item_details w :
  (forall name, In name (market_names items) ->
     exists price, select_fresh w (item_prices w) name = Some price) ->
  snd (value_loop e detailed items total_value item_details w) = w
  /\ forall total' details',
      fst (value_loop e detailed items total_value item_details w)
      = Ret (total', details') ->
      exists prices,
        map fst prices = market_names items
        /\ Forall (fun p => select_fresh w (item_prices w) (fst p) = Some (snd p)) prices
        /\ (total' == total_value + sum_prices prices)%Q.
Proof.
  revert total_value item_details.
  induction items as [| item rest IH]; intros total_value item_details Hwarm.
  - cbn. split; [reflexivity |]. intros total' details' Heq. injection Heq as <- _.
    exists []. cbn. split; [reflexivity |]. split; [constructor | ring].
  - rewrite value_loop_cons. rewrite market_names_cons in Hwarm |- *.
    assert (Hrest : forall name, In name (market_names rest) ->
              exists price, select_fresh w (item_prices w) name = Some price).
    { intros name Hin. apply Hwarm. apply in_or_app. now right. }
    destruct (dict_get item "market_hash_name" JNull) as [ex | market_hash];
      [split; [reflexivity | discriminate] |].
    destruct (truthy market_hash) eqn:Htruthy.
    + destruct market_hash as [| b | q | name | l | kv];
        try (split; [reflexivity | discriminate]).
      cbn in Htruthy. apply negb_true_iff in Htruthy. rewrite Htruthy in Hwarm |- *.
      destruct (Hwarm name ltac:(now left)) as (price & Hprice).
      rewrite (get_item_price_hit e name w price Hprice).
      destruct (IH (total_value + price)%Q
                  (if detailed then item_details ++ [(name, round2 price)]
                   else item_details) Hrest) as [Hworld Htotal].
      split; [exact Hworld |]. intros total' details' Heq.
      destruct (Htotal total' details' Heq) as (prices & Hnames & Hcached & Hsum).
      exists ((name, price) :: prices). cbn [map fst sum_prices snd app].
      split; [now rewrite Hnames |]. split; [now constructor | rewrite Hsum; ring].
    + destruct (IH total_value item_details Hrest) as [Hworld Htotal].
      split; [exact Hworld |]. intros total' details' Heq.
      destruct (Htotal total' details' Heq) as (prices & Hnames & Hcached & Hsum).
      exists prices. split; [| now split]. rewrite Hnames.
      destruct market_hash as [| b | q | name | l | kv]; try reflexivity.
      cbn in Htruthy. apply negb_false_iff in Htruthy. now rewrite Htruthy.
Qed.

Lemma warm_prices_cost_nothing_witness :
  snd (value_loop sample_env true
         [JObj [("market_hash_name", JStr "AK-47 | Redline (Field-Tested)")];
          JObj [("name", JStr "no market name")]]
         0 [] (snd sample_resolution))
  = snd sample_resolution
  /\ forall total' details',
      fst (value_loop sample_env true
             [JObj [("market_hash_name", JStr "AK-47 | Redline (Field-Tested)")];
              JObj [("name", JStr "no market name")]]
             0 [] (snd sample_resolution))
      = Ret (total', details') ->
      exists prices,
        map fst prices
        = market_names
            [JObj [("market_hash_name", JStr "AK-47 | Redline (Field-Tested)")];
             JObj [("name", JStr "no market name")]]
        /\ Forall (fun p => select_fresh (snd sample_resolution)
                              (item_prices (snd sample_resolution)) (fst p)
                            = Some (snd p)) prices
        /\ (total' == 0 + sum_prices prices)%Q.
Proof.
  apply (warm_prices_cost_nothing sample_env true
           [JObj [("market_hash_name", JStr "AK-47 | Redline (Field-Tested)")];
            JObj [("name", JStr "no market name")]]
           0%Q [] (snd sample_resolution)).
  intros name Hin. exists (1230 # 100)%Q.
  destruct Hin as [<- | []]. vm_compute. reflexivity.
Defined.

(** X18: price resolutions are paced: over any run of the loop of [value]
    the clock advances by at least 0.3 seconds for every random number
    drawn, that is, for every price fetched and stored, and the clock
    never goes back. *)
Theorem price_fetches_are_paced e detailed items total_value item_details w :
  let w' := snd (value_loop e detailed items total_value item_details w) in
  (drawn w <= drawn w')%nat
  /\ (now w + (3 # 10) * inject_Z (Z.of_nat (drawn w' - drawn w)) <= now w')%Q.
Proof.
  pose proof (value_loop_invariant e detailed
                (fun w1 => (drawn w <= drawn w1)%nat
                           /\ (now w + (3 # 10) * inject_Z (Z.of_nat (drawn w1 - drawn w))
                               <= now w1)%Q)
                (fun _ => True) (fun _ => True)) as Hinv.
  assert (Hstep : forall market_hash w1,
    (drawn w <= drawn w1)%nat
    /\ (now w + (3 # 10) * inject_Z (Z.of_nat (drawn w1 - drawn w)) <= now w1)%Q ->
    match get_item_price e market_hash w1 with
    | (Ret _, w2) =>
        ((drawn w <= drawn w2)%nat
         /\ (now w + (3 # 10) * inject_Z (Z.of_nat (drawn w2 - drawn w)) <= now w2)%Q)
        /\ True
    | (Raise _, w2) =>
        (drawn w <= drawn w2)%nat
        /\ (now w + (3 # 10) * inject_Z (Z.of_nat (drawn w2 - drawn w)) <= now w2)%Q
    end).
  { intros market_hash w1 [Hd Hn].
    destruct (get_item_price_cases e market_hash w1)
      as [(price & _ & ->) | [(_ & data & wf & _ & Hfr & _ & ->)
                             | (_ & ex & wf & Hfr & _ & ->)]];
      [now repeat split | |];
      destruct Hfr as (_ & _ & Hdrawn & _ & Hnow & _);
      [| rewrite Hdrawn; split; [exact Hd | lra]].
    destruct (price_of e data) as [ex | price].
    - rewrite Hdrawn. split; [exact Hd | lra].
    - destruct (jitter_bounds e (drawn wf)) as [Hlo _]. cbn. rewrite Hdrawn.
      split; [| exact I]. split; [lia |].
      replace (S (drawn w1) - drawn w)%nat with (S (drawn w1 - drawn w)) by lia.
      rewrite Hdrawn in Hlo. rewrite inject_nat_succ. lra. }
  specialize (Hinv Hstep (fun _ _ _ _ => I) items total_value item_details w).
  assert (Hstart : (drawn w <= drawn w)%nat
                   /\ (now w + (3 # 10) * inject_Z (Z.of_nat (drawn w - drawn w)) <= now w)%Q).
  { split; [lia |]. rewrite Nat.sub_diag.
    change (inject_Z (Z.of_nat 0)) with 0%Q. lra. }
  specialize (Hinv Hstart I). cbn zeta.
  destruct (value_loop e detailed items total_value item_details w)
    as [[[t ds] | ex] w']; cbn [snd]; [apply Hinv | exact Hinv].
Qed.
